(** * Supply-equilibrium widget and top bar of the dashboard front end

    A shallow embedding of
    - [src/components/SupplyWidgets/EquilibriumWidget.tsx]: the issuance
      formula, the 200-year supply projection and the loading placeholder;
    - the top bar component: the alarm dialog and the two alarm
      preferences kept in browser-local storage.

    Conventions of the embedding.
    - A JavaScript [number] is an IEEE 754 binary64 value, with the
      arithmetic of the language: every operation rounds to nearest, ties to
      even, and overflows, underflows, divides by zero and yields [NaN] as
      the standard says.
    - Unix timestamps are integers (seconds).
    - The date library is an interface ([DateFns]) on the timestamps of valid
      dates; its behaviour on a host with a fixed offset to UTC is given as an
      instance ([JsDate.dateFns] for UTC itself, [JsDate.dateFnsAt] for another
      offset).
    - [undefined] is [None]; a [TypeError] raised by reading a property of
      [undefined] is the [TypeError] outcome. *)

From Stdlib Require Import ZArith Floats Lia.
From stdpp Require Import gmap strings list sorting.

Set Warnings "-inexact-float".

(** ** Numbers *)

Module Number.
Open Scope float_scope.

Definition number : Type := float.

Definition NaN : number := nan.
Definition Infinity : number := infinity.

(** From 2^52 on, every binary64 value is an integer. *)
Definition two52 : number := 4503599627370496.

(** [Math.floor].  Below 2^52 in magnitude, adding and then subtracting 2^52
    (with the sign of [x]) rounds [x] to the nearest integer, which is the
    floor or one more.  Zeros keep their sign; [NaN] and the infinities are
    returned as they are. *)
Definition Math_floor (x : number) : number :=
  if abs x <? two52 then
    if x =? 0 then x
    else
      let r := if 0 <? x then (x + two52) - two52 else (x - two52) + two52 in
      if x <? r then r - 1 else r
  else x.

(** [Math.trunc]: the integer part, rounding towards zero. *)
Definition Math_trunc (x : number) : number :=
  if x <? 0 then - Math_floor (- x) else Math_floor x.

(** [Math.sqrt]: the correctly rounded square root. *)
Definition Math_sqrt (x : number) : number := PrimFloat.sqrt x.

(** The binary64 value of an integer of magnitude below 2^62 (rounded to
    nearest when it has more than 53 significant bits). *)
Definition num (z : Z) : number :=
  if (z <? 0)%Z then - of_uint63 (Uint63.of_Z (- z)) else of_uint63 (Uint63.of_Z z).

End Number.
Export Number.

(** ** The date library *)

(** The four functions of [date-fns] that the widget calls.  [getMonth] and
    [addYears] work on the calendar of the host's time zone. *)
Class DateFns (Date : Type) : Type := {
  fromUnixTime : Z -> Date;
  getUnixTime : Date -> Z;
  getMonth : Date -> Z;
  addYears : Date -> Z -> Date
}.

(** Adding one year to a date gives a later date. *)
Class DateFnsForward (Date : Type) `{DateFns Date} : Prop :=
  addYears_later : forall t : Z, (t < getUnixTime (addYears (fromUnixTime t) 1))%Z.

(** The same law for the timestamps between [lo] and [hi] only, together with
    a bound [step] on the length of a year in seconds.  A [Date] of
    JavaScript holds at most 8.64e15 milliseconds on either side of the
    epoch and is invalid beyond, so that a host can obey the law on a range
    of timestamps only. *)
Class DateFnsForwardWithin (Date : Type) `{DateFns Date} (lo hi step : Z) : Prop :=
  addYears_within : forall t : Z,
    (lo <= t <= hi)%Z ->
    (t < getUnixTime (addYears (fromUnixTime t) 1) <= t + step)%Z.

(** A [Date] object after ECMA-262 (Date objects): the time value is a number
    of milliseconds since the epoch.  The limit of 8.64e15 on its magnitude is
    not part of the functions below, which compute on every integer; what is
    proved of valid dates takes its timestamps from the range
    [- maxUnixTime, maxUnixTime]. *)
Module JsDate.
Open Scope Z_scope.

Definition Date : Type := Z.

Definition msPerDay : Z := 86400000.

Definition Day (tv : Z) : Z := tv / msPerDay.
Definition TimeWithinDay (tv : Z) : Z := tv mod msPerDay.

Definition DaysInYear (y : Z) : Z :=
  if negb (y mod 4 =? 0) then 365
  else if negb (y mod 100 =? 0) then 366
  else if negb (y mod 400 =? 0) then 365
  else 366.

Definition DayFromYear (y : Z) : Z :=
  365 * (y - 1970) + (y - 1969) / 4 - (y - 1901) / 100 + (y - 1601) / 400.

(** The largest [y] with [DayFromYear y <= d] (lemma [YearFromDay_spec]):
    an estimate from the mean length of a year, corrected by one. *)
Definition YearFromDay (d : Z) : Z :=
  let y0 := 1970 + (400 * d) / 146097 in
  if d <? DayFromYear y0 then y0 - 1
  else if DayFromYear (y0 + 1) <=? d then y0 + 1
  else y0.

Definition YearFromTime (tv : Z) : Z := YearFromDay (Day tv).

Definition InLeapYear (y : Z) : Z := if DaysInYear y =? 366 then 1 else 0.

(** Day number within its year of the first day of month [m] (0 = January). *)
Definition MonthStart (m leap : Z) : Z :=
  match m with
  | 0 => 0
  | 1 => 31
  | 2 => 59 + leap
  | 3 => 90 + leap
  | 4 => 120 + leap
  | 5 => 151 + leap
  | 6 => 181 + leap
  | 7 => 212 + leap
  | 8 => 243 + leap
  | 9 => 273 + leap
  | 10 => 304 + leap
  | 11 => 334 + leap
  | _ => 365 + leap
  end.

Definition DayWithinYear (tv : Z) : Z := Day tv - DayFromYear (YearFromTime tv).

Definition MonthFromTime (tv : Z) : Z :=
  let d := DayWithinYear tv in
  let leap := InLeapYear (YearFromTime tv) in
  if d <? 31 then 0
  else if d <? 59 + leap then 1
  else if d <? 90 + leap then 2
  else if d <? 120 + leap then 3
  else if d <? 151 + leap then 4
  else if d <? 181 + leap then 5
  else if d <? 212 + leap then 6
  else if d <? 243 + leap then 7
  else if d <? 273 + leap then 8
  else if d <? 304 + leap then 9
  else if d <? 334 + leap then 10
  else 11.

Definition DateFromTime (tv : Z) : Z :=
  DayWithinYear tv
  - MonthStart (MonthFromTime tv) (InLeapYear (YearFromTime tv)) + 1.

Definition MakeDay (year month date : Z) : Z :=
  let ym := year + month / 12 in
  let mn := month mod 12 in
  DayFromYear ym + MonthStart mn (InLeapYear ym) + date - 1.

Definition MakeDate (day time : Z) : Z := day * msPerDay + time.

(** Methods of [Date.prototype], local time being UTC. *)
Definition getTime (d : Date) : Z := d.
Definition getFullYear (d : Date) : Z := YearFromTime d.
Definition Date_getMonth (d : Date) : Z := MonthFromTime d.
Definition getDate (d : Date) : Z := DateFromTime d.

Definition setMonth (d : Date) (month date : Z) : Date :=
  MakeDate (MakeDay (YearFromTime d) month date) (TimeWithinDay d).

Definition setFullYear (d : Date) (year month date : Z) : Date :=
  MakeDate (MakeDay year month date) (TimeWithinDay d).

(** [addMonths] of date-fns: the day of the month is kept unless the target
    month is shorter, in which case the last day of that month is taken. *)
Definition addMonths (date : Date) (amount : Z) : Date :=
  if amount =? 0 then date
  else
    let dayOfMonth := getDate date in
    let endOfDesiredMonth := setMonth date (Date_getMonth date + amount + 1) 0 in
    let daysInMonth := getDate endOfDesiredMonth in
    if daysInMonth <=? dayOfMonth then endOfDesiredMonth
    else setFullYear date (getFullYear endOfDesiredMonth)
                     (Date_getMonth endOfDesiredMonth) dayOfMonth.

#[export] Instance dateFns : DateFns Date := {
  fromUnixTime unixTime := unixTime * 1000;
  getUnixTime date := getTime date / 1000;
  getMonth date := Date_getMonth date;
  addYears date amount := addMonths date (amount * 12)
}.

(** A host whose local time is [offset] milliseconds ahead of UTC all year
    (no daylight saving).  The methods that [getMonth] and [addMonths] call
    read and write the local time, [LocalTime(t) = t + offset], and the time
    value they store is [UTC(t) = t - offset]. *)
Definition LocalTime (offset tv : Z) : Z := tv + offset.
Definition UTC (offset tv : Z) : Z := tv - offset.

Definition dateFnsAt (offset : Z) : DateFns Date := {|
  fromUnixTime unixTime := unixTime * 1000;
  getUnixTime date := getTime date / 1000;
  getMonth date := Date_getMonth (LocalTime offset date);
  addYears date amount :=
    UTC offset (addMonths (LocalTime offset date) (amount * 12))
|}.

(** New York in winter: five hours behind UTC. *)
Definition utcMinus5 : Z := -18000000.

(** The number of seconds of 367 days: a leap year and a day. *)
Definition yearStep : Z := 367 * 86400.

(** The time value of a valid date is at most 8.64e15 milliseconds from the
    epoch: 8.64e12 seconds. *)
Definition maxUnixTime : Z := 8640000000000.

End JsDate.

(** ** Outcomes of evaluation *)

(** A JavaScript evaluation either returns a value or raises a [TypeError]
    (here: reading a property of [undefined]). *)
Inductive outcome (A : Type) : Type :=
| Returned (a : A)
| TypeError.
Arguments Returned {A} a.
Arguments TypeError {A}.

#[export] Instance outcome_ret : MRet outcome := @Returned.
#[export] Instance outcome_bind : MBind outcome := fun A B f m =>
  match m with
  | Returned a => f a
  | TypeError => TypeError
  end.

(** ** Units *)

Module EthUnits.

(** Modelled from the spec: the module [eth-units] that defines the two
    constants is not among the sources; the spec speaks of the staked supply
    "in Gwei", and one ETH is 10^9 Gwei and 10^18 Wei. *)
Definition GWEI_PER_ETH : number := 1e9.
Definition WEI_PER_ETH : number := 1e18.

End EthUnits.
Export EthUnits.

(** ** The equilibrium widget *)

Module EquilibriumWidget.
Open Scope float_scope.

(** Data of the supply-projection API: [{ t: number, v: number }] with a Unix
    time [t] and an amount of ETH [v]. *)
Record DataPoint : Type := { t : Z; v : number }.

Record SupplyInputs : Type := {
  inBeaconValidatorsByDay : list DataPoint;
  supplyByDay : list DataPoint
}.

Record BurnRates : Type := { burnRateAll : number }.
Record GroupedAnalysis1 : Type := { burnRates : BurnRates }.

Definition Point : Type := Z * number.

(** [NEA.last] of fp-ts: [as[as.length - 1]], which is [undefined] on an
    empty array whatever the static type says. *)
Definition NEA_last {A : Type} (as_ : list A) : option A := last as_.

Definition YEAR_IN_MINUTES : number := 365.25 * 24 * 60.

Definition burnAsFraction (nonStakingSupply weiBurnPerMinute : number) : number :=
  ((weiBurnPerMinute / WEI_PER_ETH) * YEAR_IN_MINUTES) / nonStakingSupply.

Definition getStakingSupply (supplyProjectionInputs : SupplyInputs) : outcome number :=
  match NEA_last supplyProjectionInputs.(inBeaconValidatorsByDay) with
  | Some dataPoint => Returned dataPoint.(v)
  | None => TypeError
  end.

Definition getNonStakingSupply (supplyProjectionInputs : SupplyInputs) : outcome number :=
  match NEA_last supplyProjectionInputs.(supplyByDay) with
  | None => TypeError
  | Some lastSupply =>
      let supply := lastSupply.(v) in
      match NEA_last supplyProjectionInputs.(inBeaconValidatorsByDay) with
      | None => TypeError
      | Some lastStaked =>
          let staked := lastStaked.(v) in
          Returned (supply - staked)
      end
  end.

Definition MAX_EFFECTIVE_BALANCE : number := 32 * GWEI_PER_ETH.
Definition SECONDS_PER_SLOT : number := 12.
Definition SLOTS_PER_EPOCH : number := 32.
Definition EPOCHS_PER_DAY : number :=
  (24 * 60 * 60) / SLOTS_PER_EPOCH / SECONDS_PER_SLOT.
Definition EPOCHS_PER_YEAR : number := 365.25 * EPOCHS_PER_DAY.

Definition BASE_REWARD_FACTOR : number := 64.

Definition getIssuance (effective_balance_sum : number) : number :=
  let total_effective_balance := effective_balance_sum * GWEI_PER_ETH in
  let active_validators := total_effective_balance / GWEI_PER_ETH / 32 in
  (* Balance at stake (Gwei) *)
  let max_balance_at_stake := active_validators * MAX_EFFECTIVE_BALANCE in
  let max_issuance_per_epoch :=
    Math_trunc
      ((BASE_REWARD_FACTOR * max_balance_at_stake)
       / Math_floor (Math_sqrt max_balance_at_stake)) in
  let max_issuance_per_year := max_issuance_per_epoch * EPOCHS_PER_YEAR in
  max_issuance_per_year / GWEI_PER_ETH.

(** The local variables [max_balance_at_stake] and [max_issuance_per_epoch]
    of [getIssuance] as functions of its argument. *)
Definition max_balance_at_stake_of (effective_balance_sum : number) : number :=
  effective_balance_sum * GWEI_PER_ETH / GWEI_PER_ETH / 32 * MAX_EFFECTIVE_BALANCE.

Definition max_issuance_per_epoch_of (effective_balance_sum : number) : number :=
  let max_balance_at_stake := max_balance_at_stake_of effective_balance_sum in
  Math_trunc
    ((BASE_REWARD_FACTOR * max_balance_at_stake)
     / Math_floor (Math_sqrt max_balance_at_stake)).

Definition getBurn (yearlyNonStakedBurnFraction nonStakedSupply : number) : number :=
  yearlyNonStakedBurnFraction * nonStakedSupply.

(** The values the [useMemo] callback of [equilibriums] returns. *)
Record Equilibriums : Type := {
  cashFlowsEquilibrium : number;
  nonStakedSupplyEquilibrium : number;
  supplyEquilibrium : number;
  supplyEquilibriumMap : gmap Z number;
  supplyEquilibriumSeries : list Point;
  yearlyIssuanceFraction : number
}.

(** The variables the projection loop assigns to. *)
Record LoopState : Type := {
  supply : Point;
  series : list Point;
  nonStaked : number
}.

(** [for (let i = 0; i < n; i++) body] *)
Fixpoint for_loop {S : Type} (n : nat) (body : S -> S) (s : S) : S :=
  match n with
  | O => s
  | Datatypes.S n' => for_loop n' body (body s)
  end.

Section WithDateFns.
Context {Date : Type} `{DateFns Date}.

Definition historicSupplyByMonth (supplyProjectionInputs : option SupplyInputs)
  : option (list Point) :=
  match supplyProjectionInputs with
  | None => None
  | Some supplyProjectionInputs =>
      let list :=
        fold_left
          (fun (list : list Point) (point : DataPoint) =>
             match last list with
             (* First loop there is no last to compare to. *)
             | None => [(point.(t), point.(v))]
             | Some last =>
                 (* If we don't have a point from this month yet, add it. *)
                 if negb (getMonth (fromUnixTime last.1)
                          =? getMonth (fromUnixTime point.(t)))%Z
                 then list ++ [(point.(t), point.(v))]
                 (* If we already have a point from a given month, don't add another. *)
                 else list
             end)
          supplyProjectionInputs.(supplyByDay) []
      in
      Some list
  end.

(** One turn of the loop that projects a year ahead. *)
Definition loop_body (staked issuance nonStakedSupplyBurnFraction : number)
    (s : LoopState) : LoopState :=
  let nextYear := addYears (fromUnixTime s.(supply).1) 1 in
  let burn := getBurn nonStakedSupplyBurnFraction s.(nonStaked) in
  let supply := (getUnixTime nextYear, s.(supply).2 + issuance - burn) in
  {| supply := supply;
     series := s.(series) ++ [supply];
     nonStaked := supply.2 - staked |}.

Definition equilibriums
    (stakedSupply nonStakedSupplyBurnFraction : option number)
    (supplyProjectionInputs : option SupplyInputs)
    (historicSupplyByMonth : option (list Point))
  : outcome (option Equilibriums) :=
  match stakedSupply, nonStakedSupplyBurnFraction,
        supplyProjectionInputs, historicSupplyByMonth with
  | Some stakedSupply, Some nonStakedSupplyBurnFraction,
    Some _, Some historicSupplyByMonth =>
      let supplyEquilibriumSeries := historicSupplyByMonth in
      (* Now calculate n years into the future to paint an equilibrium. *)
      match NEA_last supplyEquilibriumSeries with
      | None => TypeError
      | Some seed =>
          let staked := stakedSupply in
          let issuance := getIssuance staked in
          let init :=
            {| supply := seed;
               series := supplyEquilibriumSeries;
               nonStaked := seed.2 - staked |} in
          let final :=
            for_loop 200 (loop_body staked issuance nonStakedSupplyBurnFraction)
                     init in
          let supplyEquilibriumMap :=
            fold_left (fun (map : gmap Z number) '(t, v) => <[t := v]> map)
                      final.(series) ∅ in
          let supplyEquilibrium := final.(supply).2 in
          let nonStakedSupplyEquilibrium := final.(nonStaked) in
          let cashFlowsEquilibrium := getIssuance staked in
          let yearlyIssuanceFraction := getIssuance staked / staked in
          Returned (Some
            {| cashFlowsEquilibrium := cashFlowsEquilibrium;
               nonStakedSupplyEquilibrium := nonStakedSupplyEquilibrium;
               supplyEquilibrium := supplyEquilibrium;
               supplyEquilibriumMap := supplyEquilibriumMap;
               supplyEquilibriumSeries := final.(series);
               yearlyIssuanceFraction := yearlyIssuanceFraction |})
      end
  | _, _, _, _ => Returned None
  end.

(** The variables of the loop before its first turn and after [k] turns. *)
Definition loop_start (staked : number) (historic : list Point) (seed : Point)
  : LoopState :=
  {| supply := seed; series := historic; nonStaked := seed.2 - staked |}.

Definition loop_after (k : nat) (staked nonStakedSupplyBurnFraction : number)
    (historic : list Point) (seed : Point) : LoopState :=
  for_loop k (loop_body staked (getIssuance staked) nonStakedSupplyBurnFraction)
           (loop_start staked historic seed).

(** A day of the supply series as a point of the graph, and the month (0 to
    11) the date library gives a Unix time. *)
Definition toPoint (point : DataPoint) : Point := (point.(t), point.(v)).

Definition monthOf (unixTime : Z) : Z := getMonth (fromUnixTime unixTime).

(** *** The projection on a store of arrays *)

(** JavaScript arrays are objects in a store, and [push] updates its array in
    place.  The callback of [equilibriums] receives the array memoised by
    [historicSupplyByMonth] as a reference [historic], copies it with a
    spread ([[...historicSupplyByMonth]]) and pushes to the copy. *)
Abbreviation store := (gmap nat (list Point)).

(** [[...a]]: a new array with the elements of the array at [a]. *)
Definition spread (a : nat) (σ : store) : outcome (nat * store) :=
  match σ !! a with
  | Some elements =>
      let l := fresh (dom σ) in
      Returned (l, <[l := elements]> σ)
  | None => TypeError
  end.

(** [a.push(p)] *)
Definition push (a : nat) (p : Point) (σ : store) : store :=
  match σ !! a with
  | Some elements => <[a := elements ++ [p]]> σ
  | None => σ
  end.

Record StoreLoopState : Type := {
  st_supply : Point;
  st_nonStaked : number;
  st_store : store
}.

Definition store_loop_body (supplyEquilibriumSeries : nat)
    (staked issuance nonStakedSupplyBurnFraction : number)
    (s : StoreLoopState) : StoreLoopState :=
  let nextYear := addYears (fromUnixTime s.(st_supply).1) 1 in
  let burn := getBurn nonStakedSupplyBurnFraction s.(st_nonStaked) in
  let supply := (getUnixTime nextYear, s.(st_supply).2 + issuance - burn) in
  {| st_supply := supply;
     st_nonStaked := supply.2 - staked;
     st_store := push supplyEquilibriumSeries supply s.(st_store) |}.

(** The callback on the store.  It returns the reference of the series it
    built, the record of results (whose series is the content of that array
    when the callback returns) and the store it leaves. *)
Definition store_equilibriums
    (stakedSupply nonStakedSupplyBurnFraction : option number)
    (supplyProjectionInputs : option SupplyInputs)
    (historic : option nat) (σ : store)
  : outcome (option (nat * Equilibriums) * store) :=
  match stakedSupply, nonStakedSupplyBurnFraction,
        supplyProjectionInputs, historic with
  | Some stakedSupply, Some nonStakedSupplyBurnFraction, Some _, Some historic =>
      '(supplyEquilibriumSeries, σ1) ← spread historic σ;
      match NEA_last (default [] (σ1 !! supplyEquilibriumSeries)) with
      | None => TypeError
      | Some seed =>
          let staked := stakedSupply in
          let issuance := getIssuance staked in
          let final :=
            for_loop 200
              (store_loop_body supplyEquilibriumSeries staked issuance
                               nonStakedSupplyBurnFraction)
              {| st_supply := seed;
                 st_nonStaked := seed.2 - staked;
                 st_store := σ1 |} in
          let σ2 := final.(st_store) in
          let elements := default [] (σ2 !! supplyEquilibriumSeries) in
          let supplyEquilibriumMap :=
            fold_left (fun (map : gmap Z number) '(t, v) => <[t := v]> map)
                      elements ∅ in
          Returned
            (Some (supplyEquilibriumSeries,
                   {| cashFlowsEquilibrium := getIssuance staked;
                      nonStakedSupplyEquilibrium := final.(st_nonStaked);
                      supplyEquilibrium := final.(st_supply).2;
                      supplyEquilibriumMap := supplyEquilibriumMap;
                      supplyEquilibriumSeries := elements;
                      yearlyIssuanceFraction := getIssuance staked / staked |}),
             σ2)
      end
  | _, _, _, _ => Returned (None, σ)
  end.

(** *** The component: hooks, state, effect and rendering *)

(** What the hooks of the component return at a render: the analysis
    snapshot and the projection inputs ([undefined] before they are loaded),
    and the active breakpoints. *)
Record Hooks : Type := {
  groupedAnalysis1 : option GroupedAnalysis1;
  supplyProjectionInputs : option SupplyInputs;
  md : bool;
  lg : bool
}.

(** The three [useState] cells. *)
Record State : Type := {
  initialEquilibriumInputsSet : bool;
  stakedSupply : number;
  nonStakedSupplyBurnFraction : number
}.

Definition initialState : State :=
  {| initialEquilibriumInputsSet := false;
     stakedSupply := 0;
     nonStakedSupplyBurnFraction := 0 |}.

(** [useGroupedAnalysis1()?.burnRates.burnRateAll] *)
Definition burnRateAllOf (h : Hooks) : option number :=
  match h.(groupedAnalysis1) with
  | Some a => Some a.(burnRates).(burnRateAll)
  | None => None
  end.

(** The effect that sets the sliders once, after the data has loaded. *)
Definition initEffect (h : Hooks) (st : State) : outcome State :=
  match burnRateAllOf h, h.(supplyProjectionInputs), st.(initialEquilibriumInputsSet) with
  | Some burnRateAll, Some supplyProjectionInputs, false =>
      staked ← getStakingSupply supplyProjectionInputs;
      nonStakedSupply ← getNonStakingSupply supplyProjectionInputs;
      Returned
        {| initialEquilibriumInputsSet := true;
           stakedSupply := staked;
           nonStakedSupplyBurnFraction := burnAsFraction nonStakedSupply burnRateAll |}
  | _, _, _ => Returned st
  end.

(** The [onChange] handlers of the two sliders. *)
Definition setStakedSupply (value : number) (st : State) : State :=
  {| initialEquilibriumInputsSet := st.(initialEquilibriumInputsSet);
     stakedSupply := value;
     nonStakedSupplyBurnFraction := st.(nonStakedSupplyBurnFraction) |}.

Definition setNonStakedSupplyBurnFraction (value : number) (st : State) : State :=
  {| initialEquilibriumInputsSet := st.(initialEquilibriumInputsSet);
     stakedSupply := st.(stakedSupply);
     nonStakedSupplyBurnFraction := value |}.

(** The [equilibriums] memo as the component evaluates it at a render. *)
Definition equilibriumsOf (h : Hooks) (st : State) : outcome (option Equilibriums) :=
  equilibriums (Some st.(stakedSupply)) (Some st.(nonStakedSupplyBurnFraction))
               h.(supplyProjectionInputs)
               (historicSupplyByMonth h.(supplyProjectionInputs)).

(** What is put where the graph goes: the graph or the text [loading...]. *)
Inductive GraphSlot : Type :=
| EquilibriumGraph (supplyEquilibriumSeries : list Point)
                   (supplyEquilibriumMap : gmap Z number)
                   (widthMin widthMax : option number) (height : Z)
| LoadingText (heightClass : string).

(** The rendered widget, as far as it depends on the data: the graph slot
    and the numbers handed to the formatters ([None] for [undefined]). *)
Record View : Type := {
  graphSlot : GraphSlot;
  supplyEquilibriumAmount : option number;
  cashFlowsEquilibriumAmount : option number;
  stakingIssuanceFraction : option number;
  stakingAmount : option number;
  nonStakedBurnFraction : option number;
  nonStakedEquilibriumAmount : option number
}.

Definition render (h : Hooks) (st : State) : outcome View :=
  equilibriums ← equilibriumsOf h st;
  let width : option number :=
    if h.(lg) then Some 0.4 else if h.(md) then Some 0.7 else None in
  Returned
    {| graphSlot :=
         match equilibriums with
         | Some e =>
             EquilibriumGraph e.(supplyEquilibriumSeries) e.(supplyEquilibriumMap)
                              width width (if h.(lg) then 220 else 160)
         | None => LoadingText (if h.(lg) then "h-[220px]" else "h-[160px]")
         end;
       supplyEquilibriumAmount :=
         (fun e => e.(supplyEquilibrium) / 1e6) <$> equilibriums;
       cashFlowsEquilibriumAmount :=
         (fun e => e.(cashFlowsEquilibrium) / 1e6) <$> equilibriums;
       stakingIssuanceFraction :=
         (fun e => e.(yearlyIssuanceFraction)) <$> equilibriums;
       stakingAmount := Some (st.(stakedSupply) / 1e6);
       nonStakedBurnFraction := Some st.(nonStakedSupplyBurnFraction);
       nonStakedEquilibriumAmount :=
         (fun e => e.(nonStakedSupplyEquilibrium) / 1e6) <$> equilibriums |}.

End WithDateFns.

(** *** The sliders *)

(** The stakes the first slider reports: [min = 5 * 1e6], [max = 30 * 1e6]
    and [step = 1e5] admit 5,000,000 + 100,000 j ETH for j from 0 to 250,
    and [Number(e.target.value)] is the binary64 value of that integer. *)
Definition stakedSupplySteps : nat := 250.

Definition stakedSupplyETH (j : nat) : Z := 5000000 + 100000 * Z.of_nat j.

Definition stakedSupplySlider (j : nat) : number := num (stakedSupplyETH j).

(** The burn fractions the second slider reports: [min = 0], [max = 0.05]
    and [step = 0.001] admit the thousandths from 0 to 0.05, and
    [Number(e.target.value)] is the binary64 value nearest to each. *)
Definition burnFractionSlider : list number :=
  [ 0;     0.001; 0.002; 0.003; 0.004; 0.005; 0.006; 0.007; 0.008; 0.009;
    0.01;  0.011; 0.012; 0.013; 0.014; 0.015; 0.016; 0.017; 0.018; 0.019;
    0.02;  0.021; 0.022; 0.023; 0.024; 0.025; 0.026; 0.027; 0.028; 0.029;
    0.03;  0.031; 0.032; 0.033; 0.034; 0.035; 0.036; 0.037; 0.038; 0.039;
    0.04;  0.041; 0.042; 0.043; 0.044; 0.045; 0.046; 0.047; 0.048; 0.049;
    0.05 ].

(** *** The issuance in the words of the specification *)

(** The integer a binary64 value holds, if it holds one. *)
Definition integer_value (x : number) : option Z :=
  match Prim2SF x with
  | S754_zero _ => Some 0%Z
  | S754_finite s m e =>
      let magnitude :=
        if (0 <=? e)%Z then Some (Z.pos m * 2 ^ e)%Z
        else if (Z.pos m mod 2 ^ (- e) =? 0)%Z then Some (Z.pos m / 2 ^ (- e))%Z
        else None in
      (fun z => if s then (- z)%Z else z) <$> magnitude
  | S754_infinity _ | S754_nan => None
  end.

(** Issuance per epoch in Gwei for a balance at stake in Gwei, on the
    integers: truncate(BASE_REWARD_FACTOR * balance / floor(sqrt(balance))),
    with the exact square root and the exact quotient. *)
Definition spec_issuance_per_epoch (balance_at_stake : Z) : Z :=
  ((64 * balance_at_stake) ÷ Z.sqrt balance_at_stake)%Z.

(** *** The amounts of the projection *)

(** The two amounts the loop carries, [supply[1]] and [nonStaked], after one
    more turn.  The dates of the points play no part in them. *)
Definition amounts_step (staked issuance nonStakedSupplyBurnFraction : number)
    (a : number * number) : number * number :=
  let burn := getBurn nonStakedSupplyBurnFraction a.2 in
  let supply := a.1 + issuance - burn in
  (supply, supply - staked).

Definition amounts_after (k : nat) (staked nonStakedSupplyBurnFraction seed : number)
  : number * number :=
  for_loop k (amounts_step staked (getIssuance staked) nonStakedSupplyBurnFraction)
           (seed, seed - staked).

(** Whether the non-staked supply moved, over one turn, in the direction the
    comparison of burn and issuance suggests. *)
Definition trend_follows (staked nonStakedSupplyBurnFraction : number)
    (a : number * number) : bool :=
  let issuance := getIssuance staked in
  let burn := getBurn nonStakedSupplyBurnFraction a.2 in
  let a' := amounts_step staked issuance nonStakedSupplyBurnFraction a in
  (if issuance <? burn then a'.2 <? a.2 else true)
  && (if burn <? issuance then a.2 <? a'.2 else true)
  && (if burn =? issuance then a'.2 =? a.2 else true).

(** [trend_follows] at each of the next [n] turns. *)
Fixpoint trend_follows_for (n : nat) (staked nonStakedSupplyBurnFraction : number)
    (a : number * number) : bool :=
  match n with
  | O => true
  | S n' =>
      trend_follows staked nonStakedSupplyBurnFraction a
      && trend_follows_for n' staked nonStakedSupplyBurnFraction
           (amounts_step staked (getIssuance staked) nonStakedSupplyBurnFraction a)
  end.

End EquilibriumWidget.

(** ** Sample data *)

Module Samples.
Import EquilibriumWidget.
Open Scope float_scope.

(** The example of the specification: 10,000,000 ETH staked and 100,000,000
    ETH not staked, that is a supply of 110,000,000 ETH, on 2022-02-15. *)
Definition exampleInputs : SupplyInputs :=
  {| inBeaconValidatorsByDay := [ {| t := 1644883200; v := 10000000 |} ];
     supplyByDay := [ {| t := 1644883200; v := 110000000 |} ] |}.

Definition exampleState : State :=
  {| initialEquilibriumInputsSet := true;
     stakedSupply := 10000000;
     nonStakedSupplyBurnFraction := 0.01 |}.

(** A supply series with days of two months: 2022-01-15, 2022-01-16 and
    2022-02-15, at noon UTC. *)
Definition twoMonthInputs : SupplyInputs :=
  {| inBeaconValidatorsByDay := [ {| t := 1644926400; v := 10000000 |} ];
     supplyByDay :=
       [ {| t := 1642248000; v := 109000000 |};
         {| t := 1642334400; v := 109500000 |};
         {| t := 1644926400; v := 110000000 |} ] |}.

(** A supply series with two days, 2022-01-15 at 12:00 UTC and 2022-02-01
    at 02:00 UTC; the second is still 2022-01-31 five hours west of UTC. *)
Definition monthEdgeInputs : SupplyInputs :=
  {| inBeaconValidatorsByDay := [ {| t := 1643680800; v := 10000000 |} ];
     supplyByDay :=
       [ {| t := 1642248000; v := 109000000 |};
         {| t := 1643680800; v := 110000000 |} ] |}.

Definition loadedHooks (inputs : SupplyInputs) : Hooks :=
  {| groupedAnalysis1 := Some {| burnRates := {| burnRateAll := 3500000000000000000 |} |};
     supplyProjectionInputs := Some inputs;
     md := true;
     lg := false |}.

(** The projection inputs have arrived, the analysis has not. *)
Definition analysisPendingHooks : Hooks :=
  {| groupedAnalysis1 := None;
     supplyProjectionInputs := Some exampleInputs;
     md := true;
     lg := false |}.

End Samples.

(** ** The top bar *)

Module TopBar.

(** Modelled from the spec: the hook [useLocalStorage] is imported from a
    module that is not among the sources.  After the spec, an alarm
    preference is a boolean kept in browser-local storage under a key, "read
    at mount, written on toggle": the hook reads the value stored under its
    key when the component mounts, the initial value standing in when there
    is none, and its setter stores the new value under the key. *)
Definition useLocalStorage_read (key : string) (initialValue : bool)
    (storage : gmap string bool) : bool :=
  default initialValue (storage !! key).

Definition useLocalStorage_write (key : string) (value : bool)
    (storage : gmap string bool) : gmap string bool :=
  <[key := value]> storage.

Inductive AlarmType : Type := gas | eth.

(** The state cells of the component. *)
Record State : Type := {
  gasAlarmActive : bool;
  ethAlarmActive : bool;
  showAlarmDialog : bool
}.

(** The browser's storage together with the mounted component. *)
Record World : Type := {
  storage : gmap string bool;
  state : State
}.

(** First render: the two [useLocalStorage] and the [useState]. *)
Definition mount (storage : gmap string bool) : World :=
  {| storage := storage;
     state :=
       {| gasAlarmActive := useLocalStorage_read "gas-alarm-enabled" false storage;
          ethAlarmActive := useLocalStorage_read "eth-alarm-enabled" false storage;
          showAlarmDialog := false |} |}.

Definition setGasAlarmActive (value : bool) (w : World) : World :=
  {| storage := useLocalStorage_write "gas-alarm-enabled" value w.(storage);
     state :=
       {| gasAlarmActive := value;
          ethAlarmActive := w.(state).(ethAlarmActive);
          showAlarmDialog := w.(state).(showAlarmDialog) |} |}.

Definition setEthAlarmActive (value : bool) (w : World) : World :=
  {| storage := useLocalStorage_write "eth-alarm-enabled" value w.(storage);
     state :=
       {| gasAlarmActive := w.(state).(gasAlarmActive);
          ethAlarmActive := value;
          showAlarmDialog := w.(state).(showAlarmDialog) |} |}.

Definition setShowAlarmDialog (value : bool) (w : World) : World :=
  {| storage := w.(storage);
     state :=
       {| gasAlarmActive := w.(state).(gasAlarmActive);
          ethAlarmActive := w.(state).(ethAlarmActive);
          showAlarmDialog := value |} |}.

Definition isAlarmActive (st : State) : bool :=
  st.(gasAlarmActive) || st.(ethAlarmActive).

(** Modelled from the spec: the component [AlarmInput] is not among the
    sources.  After the spec a preference is "written on toggle": a toggle
    calls [onToggleIsAlarmActive] with the negation of [isAlarmActive]. *)
Definition toggleAlarm (type : AlarmType) (w : World) : World :=
  match type with
  | gas => setGasAlarmActive (negb w.(state).(gasAlarmActive)) w
  | eth => setEthAlarmActive (negb w.(state).(ethAlarmActive)) w
  end.

(** The flags of the state agree with what the storage holds. *)
Definition coherent (w : World) : Prop :=
  w.(state).(gasAlarmActive)
  = useLocalStorage_read "gas-alarm-enabled" false w.(storage)
  /\ w.(state).(ethAlarmActive)
     = useLocalStorage_read "eth-alarm-enabled" false w.(storage).

Section WithDom.
(** The nodes of the document and [Node.prototype.contains]. *)
Context {Node : Type} (contains : Node -> Node -> bool).

(** [ref.current] of the two refs. *)
Record Refs : Type := {
  dialogRef : option Node;
  alarmButtonRef : option Node
}.

(** [ref.current !== null && ref.current.contains(target)] *)
Definition refContains (current : option Node) (target : Node) : bool :=
  match current with
  | Some node => contains node target
  | None => false
  end.

(** The document's click listener, a closure over the [showAlarmDialog] of
    the render that created it.  The result is the argument of the call of
    [setShowAlarmDialog], [None] when the listener returns without a call. *)
Definition checkIfClickedOutside (refs : Refs) (showAlarmDialog : bool)
    (e_target : option Node) : option bool :=
  let targetIn (current : option Node) : bool :=
    match e_target with
    | Some target => refContains current target
    | None => false
    end in
  if negb showAlarmDialog
     || bool_decide (e_target = None)
     || targetIn refs.(dialogRef)
     || targetIn refs.(alarmButtonRef)
  then None
  else Some false.

(** The button's [onClick], a closure over [showAlarmDialog] as well. *)
Definition handleClickAlarm (showAlarmDialog : bool) : bool :=
  negb showAlarmDialog.

Inductive Event : Type :=
| Click (target : option Node)
| Toggle (type : AlarmType)
| Reload
| Other (name : string).

(** A click is dispatched to the button's [onClick] when its target lies in
    the button, and then, bubbling on, to the listener of the document.  Both
    closures are those of the last render. *)
Definition click (refs : Refs) (e_target : option Node) (w : World) : World :=
  let showAlarmDialog := w.(state).(showAlarmDialog) in
  let w1 :=
    match e_target with
    | Some target =>
        if refContains refs.(alarmButtonRef) target
        then setShowAlarmDialog (handleClickAlarm showAlarmDialog) w
        else w
    | None => w
    end in
  match checkIfClickedOutside refs showAlarmDialog e_target with
  | Some value => setShowAlarmDialog value w1
  | None => w1
  end.

Definition step (refs : Refs) (e : Event) (w : World) : World :=
  match e with
  | Click e_target => click refs e_target w
  | Toggle type => toggleAlarm type w
  | Reload => mount w.(storage)
  | Other _ => w
  end.

Definition run (refs : Refs) (events : list Event) (w : World) : World :=
  fold_left (fun w e => step refs e w) events w.

End WithDom.

(** The elements the component renders, each standing for its subtree. *)
Inductive Element : Type :=
| Root
| PriceGasWidget
| AlarmButton
| BellImage
| Dialog
| GasAlarmInput
| EthAlarmInput
| JoinLink
| Elsewhere.

Definition parent (n : Element) : option Element :=
  match n with
  | Root | Elsewhere => None
  | PriceGasWidget | AlarmButton | Dialog | JoinLink => Some Root
  | BellImage => Some AlarmButton
  | GasAlarmInput | EthAlarmInput => Some Dialog
  end.

Definition Element_eqb (a b : Element) : bool :=
  match a, b with
  | Root, Root | PriceGasWidget, PriceGasWidget | AlarmButton, AlarmButton
  | BellImage, BellImage | Dialog, Dialog | GasAlarmInput, GasAlarmInput
  | EthAlarmInput, EthAlarmInput | JoinLink, JoinLink
  | Elsewhere, Elsewhere => true
  | _, _ => false
  end.

(** [a.contains(b)]: [b] is [a] or a descendant of [a] (the tree has depth 3). *)
Definition Element_contains (a b : Element) : bool :=
  Element_eqb a b
  || match parent b with
     | Some p =>
         Element_eqb a p
         || match parent p with
            | Some g => Element_eqb a g
            | None => false
            end
     | None => false
     end.

Definition mountedRefs : Refs :=
  {| dialogRef := Some Dialog; alarmButtonRef := Some AlarmButton |}.

End TopBar.

(** * Properties *)


(** ** Numbers *)

Section NumberFacts.
Open Scope float_scope.

(** [NaN] is contagious. *)
Lemma add_NaN_r (a : number) : a + NaN = NaN.
Proof.
  rewrite <- (SF2Prim_Prim2SF (a + NaN)), add_spec.
  change (Prim2SF NaN) with S754_nan. destruct (Prim2SF a); reflexivity.
Qed.

Lemma sub_NaN_l (a : number) : NaN - a = NaN.
Proof.
  rewrite <- (SF2Prim_Prim2SF (NaN - a)), sub_spec.
  change (Prim2SF NaN) with S754_nan. reflexivity.
Qed.

Lemma div_NaN_l (a : number) : NaN / a = NaN.
Proof.
  rewrite <- (SF2Prim_Prim2SF (NaN / a)), div_spec.
  change (Prim2SF NaN) with S754_nan. reflexivity.
Qed.

(** [Math_floor] and [Math_trunc] on values of either sign, on halves, on
    zeros of either sign, and on values that are not finite. *)
Example Math_floor_values :
  Math_floor 2.5 = 2 /\ Math_floor (-2.5) = -3 /\ Math_floor 0.3 = 0
  /\ Math_floor (-0.3) = -1 /\ Math_floor 7 = 7 /\ Math_floor (-0) = -0
  /\ Math_floor 4503599627370495.5 = 4503599627370495
  /\ Math_floor 1e300 = 1e300 /\ Math_floor Infinity = Infinity
  /\ Math_floor NaN = NaN.
Proof. repeat split; vm_compute; reflexivity. Qed.

Example Math_trunc_values :
  Math_trunc 2.5 = 2 /\ Math_trunc (-2.5) = -2 /\ Math_trunc 0.3 = 0
  /\ Math_trunc (-0.3) = -0 /\ Math_trunc (-7) = -7
  /\ Math_trunc Infinity = Infinity /\ Math_trunc NaN = NaN.
Proof. repeat split; vm_compute; reflexivity. Qed.

End NumberFacts.

(** ** The calendar of [JsDate] *)

Section JsDateFacts.
Import JsDate.
Open Scope Z_scope.

Lemma YearFromDay_spec (d : Z) :
  DayFromYear (YearFromDay d) <= d < DayFromYear (YearFromDay d + 1).
Proof.
  unfold YearFromDay. cbv zeta.
  destruct (Z.ltb_spec d (DayFromYear (1970 + 400 * d / 146097))) as [Hlt | Hge].
  - unfold DayFromYear in *. Z.div_mod_to_equations. lia.
  - destruct (Z.leb_spec (DayFromYear (1970 + 400 * d / 146097 + 1)) d)
      as [Hle | Hgt];
      unfold DayFromYear in *; Z.div_mod_to_equations; lia.
Qed.

Lemma DayFromYear_mono (y1 y2 : Z) :
  y1 <= y2 -> DayFromYear y1 <= DayFromYear y2.
Proof. intros Hy. unfold DayFromYear. Z.div_mod_to_equations. lia. Qed.

Lemma DayFromYear_next (y : Z) : DayFromYear y + 365 <= DayFromYear (y + 1).
Proof. unfold DayFromYear. Z.div_mod_to_equations. lia. Qed.

Lemma YearFromDay_ge (y d : Z) : DayFromYear y <= d -> y <= YearFromDay d.
Proof.
  intros Hy. destruct (Z.le_gt_cases y (YearFromDay d)) as [Hle | Hgt]; [exact Hle |].
  pose proof (YearFromDay_spec d) as [_ Hd].
  pose proof (DayFromYear_mono (YearFromDay d + 1) y ltac:(lia)). lia.
Qed.

Lemma InLeapYear_range (y : Z) : 0 <= InLeapYear y <= 1.
Proof. unfold InLeapYear. destruct (DaysInYear y =? 366); lia. Qed.

Lemma MonthFromTime_range (tv : Z) : 0 <= MonthFromTime tv <= 11.
Proof. unfold MonthFromTime. cbv zeta. repeat case_match; lia. Qed.

Lemma MonthStart_nonneg (m leap : Z) : 0 <= leap -> 0 <= MonthStart m leap.
Proof.
  intros Hl. unfold MonthStart.
  destruct m as [| p | p]; try lia.
  do 4 (try destruct p as [p | p |]); lia.
Qed.

Lemma DayWithinYear_nonneg (tv : Z) : 0 <= DayWithinYear tv.
Proof.
  unfold DayWithinYear, YearFromTime.
  pose proof (YearFromDay_spec (Day tv)). lia.
Qed.

Lemma DateFromTime_pos (tv : Z) : 1 <= DateFromTime tv.
Proof.
  unfold DateFromTime, MonthFromTime. cbv zeta.
  pose proof (DayWithinYear_nonneg tv) as Hd.
  pose proof (InLeapYear_range (YearFromTime tv)) as Hl.
  set (d := DayWithinYear tv) in *.
  set (leap := InLeapYear (YearFromTime tv)) in *.
  repeat match goal with
         | |- context [if ?a <? ?b then _ else _] => destruct (Z.ltb_spec a b)
         end;
    unfold MonthStart; lia.
Qed.

Lemma Day_MakeDate (day time : Z) :
  0 <= time < msPerDay -> Day (MakeDate day time) = day.
Proof.
  intros Ht. unfold Day, MakeDate, msPerDay in *.
  Z.div_mod_to_equations. lia.
Qed.

Lemma TimeWithinDay_range (tv : Z) : 0 <= TimeWithinDay tv < msPerDay.
Proof. unfold TimeWithinDay, msPerDay. apply Z.mod_pos_bound. lia. Qed.

(** The day a month of the next year begins is past the current year. *)
Lemma MakeDay_next_year (y m date : Z) :
  0 <= m <= 11 -> 0 <= date ->
  DayFromYear (y + 1) <= MakeDay y (m + 12 + 1) date.
Proof.
  intros Hm Hdate. unfold MakeDay. cbv zeta.
  assert (Hcases : m = 11 \/ (0 <= m <= 10)) by lia.
  destruct Hcases as [-> | Hm'].
  - change ((11 + 12 + 1) / 12) with 2. change ((11 + 12 + 1) mod 12) with 0.
    simpl MonthStart.
    pose proof (DayFromYear_next (y + 1)).
    replace (y + 1 + 1) with (y + 2) in * by lia. lia.
  - assert (Hq : (m + 12 + 1) / 12 = 1) by (Z.div_mod_to_equations; lia).
    assert (Hr : (m + 12 + 1) mod 12 = m + 1) by (Z.div_mod_to_equations; lia).
    rewrite Hq, Hr.
    pose proof (InLeapYear_range (y + 1)) as Hl.
    assert (31 <= MonthStart (m + 1) (InLeapYear (y + 1))).
    { assert (Hc : m = 0 \/ m = 1 \/ m = 2 \/ m = 3 \/ m = 4 \/ m = 5 \/ m = 6
                    \/ m = 7 \/ m = 8 \/ m = 9 \/ m = 10) by lia.
      repeat (destruct Hc as [-> | Hc]); try subst m; simpl; lia. }
    lia.
Qed.

Lemma MakeDay_in_year (y m date : Z) :
  0 <= m <= 11 -> 1 <= date -> DayFromYear y <= MakeDay y m date.
Proof.
  intros Hm Hdate. unfold MakeDay. cbv zeta.
  assert (Hq : m / 12 = 0) by (Z.div_mod_to_equations; lia).
  assert (Hr : m mod 12 = m) by (Z.div_mod_to_equations; lia).
  rewrite Hq, Hr, Z.add_0_r.
  pose proof (InLeapYear_range y) as Hl.
  pose proof (MonthStart_nonneg m (InLeapYear y) ltac:(lia)). lia.
Qed.

(** A time value moved to a later day, the time of day kept, is later by at
    least a day. *)
Lemma MakeDate_later (tv day : Z) :
  Day tv < day -> tv + msPerDay <= MakeDate day (TimeWithinDay tv).
Proof.
  unfold Day, MakeDate, TimeWithinDay, msPerDay. intros Hd.
  Z.div_mod_to_equations. lia.
Qed.

Lemma addMonths_12_later (tv : Z) : tv + msPerDay <= addMonths tv 12.
Proof.
  unfold addMonths. change (12 =? 0) with false. cbv iota zeta.
  unfold setMonth, setFullYear, getDate, getFullYear, Date_getMonth.
  pose proof (YearFromDay_spec (Day tv)) as [_ Hyear].
  pose proof (MonthFromTime_range tv) as Hm.
  pose proof (TimeWithinDay_range tv) as Htime.
  pose proof (MakeDay_next_year (YearFromTime tv) (MonthFromTime tv) 0 Hm ltac:(lia))
    as Hend.
  set (endDay := MakeDay (YearFromTime tv) (MonthFromTime tv + 12 + 1) 0) in *.
  set (endOfDesiredMonth := MakeDate endDay (TimeWithinDay tv)).
  unfold YearFromTime in Hend.
  case_match.
  - apply MakeDate_later. lia.
  - apply MakeDate_later.
    assert (Hye : YearFromDay (Day tv) + 1 <= YearFromTime endOfDesiredMonth).
    { unfold YearFromTime, endOfDesiredMonth. rewrite Day_MakeDate by exact Htime.
      apply YearFromDay_ge. exact Hend. }
    pose proof (MakeDay_in_year (YearFromTime endOfDesiredMonth)
                  (MonthFromTime endOfDesiredMonth) (DateFromTime tv)
                  (MonthFromTime_range _) (DateFromTime_pos tv)).
    pose proof (DayFromYear_mono _ _ Hye). lia.
Qed.

(** On a host in UTC, [addYears date 1] is later than [date]. *)
#[export] Instance JsDate_forward : DateFnsForward JsDate.Date.
Proof.
  intros t. change (t < addMonths (t * 1000) 12 / 1000).
  pose proof (addMonths_12_later (t * 1000)) as Hlater.
  unfold msPerDay in Hlater. Z.div_mod_to_equations. lia.
Qed.


(** *** The length of a year *)

Lemma DayFromYear_succ (y : Z) : DayFromYear (y + 1) = DayFromYear y + DaysInYear y.
Proof.
  unfold DayFromYear, DaysInYear.
  destruct (Z.eqb_spec (y mod 4) 0), (Z.eqb_spec (y mod 100) 0),
           (Z.eqb_spec (y mod 400) 0); cbn [negb];
    Z.div_mod_to_equations; lia.
Qed.

Lemma DaysInYear_leap (y : Z) : DaysInYear y = 365 + InLeapYear y.
Proof.
  unfold InLeapYear, DaysInYear.
  destruct (negb (y mod 4 =? 0)); [reflexivity |].
  destruct (negb (y mod 100 =? 0)); [reflexivity |].
  destruct (negb (y mod 400 =? 0)); reflexivity.
Qed.

(** The year of a day is the only year the day lies in. *)
Lemma YearFromDay_unique (y d : Z) :
  DayFromYear y <= d < DayFromYear (y + 1) -> YearFromDay d = y.
Proof.
  intros [Hlo Hhi]. pose proof (YearFromDay_spec d) as [Hlo' Hhi'].
  destruct (Z.lt_trichotomy (YearFromDay d) y) as [Hlt | [Heq | Hgt]]; [| exact Heq |].
  - pose proof (DayFromYear_mono (YearFromDay d + 1) y ltac:(lia)). lia.
  - pose proof (DayFromYear_mono (y + 1) (YearFromDay d) ltac:(lia)). lia.
Qed.

Lemma month_cases (m : Z) :
  0 <= m <= 11 ->
  m = 0 \/ m = 1 \/ m = 2 \/ m = 3 \/ m = 4 \/ m = 5 \/ m = 6 \/ m = 7
  \/ m = 8 \/ m = 9 \/ m = 10 \/ m = 11.
Proof. lia. Qed.

Lemma DayWithinYear_bound (tv : Z) :
  0 <= DayWithinYear tv < 365 + InLeapYear (YearFromTime tv).
Proof.
  unfold DayWithinYear, YearFromTime.
  pose proof (YearFromDay_spec (Day tv)) as Hspec.
  rewrite DayFromYear_succ, DaysInYear_leap in Hspec. lia.
Qed.

(** A day lies in the month it is given, and its date counts from 1 at the
    start of that month. *)
Lemma MonthFromTime_spec (tv : Z) :
  MonthStart (MonthFromTime tv) (InLeapYear (YearFromTime tv)) <= DayWithinYear tv
  /\ DayWithinYear tv
     < MonthStart (MonthFromTime tv + 1) (InLeapYear (YearFromTime tv)).
Proof.
  pose proof (DayWithinYear_bound tv) as Hd.
  pose proof (InLeapYear_range (YearFromTime tv)) as Hl.
  unfold MonthFromTime. cbv zeta.
  set (d := DayWithinYear tv) in *.
  set (leap := InLeapYear (YearFromTime tv)) in *.
  repeat match goal with
         | |- context [if ?a <? ?b then _ else _] => destruct (Z.ltb_spec a b)
         end;
    simpl MonthStart; lia.
Qed.

(** Conversely, a day that lies in month [m] of year [y] has that year,
    month and date. *)
Lemma calendar_of_day (tv y m date : Z) :
  0 <= m <= 11 ->
  Day tv = DayFromYear y + MonthStart m (InLeapYear y) + date - 1 ->
  1 <= date <= MonthStart (m + 1) (InLeapYear y) - MonthStart m (InLeapYear y) ->
  YearFromTime tv = y /\ MonthFromTime tv = m /\ DateFromTime tv = date.
Proof.
  intros Hm Hday Hdate.
  pose proof (InLeapYear_range y) as Hl.
  assert (Hyear : YearFromTime tv = y).
  { unfold YearFromTime. apply YearFromDay_unique.
    rewrite DayFromYear_succ, DaysInYear_leap, Hday.
    destruct (month_cases m Hm) as
      [-> | [-> | [-> | [-> | [-> | [-> | [-> | [-> | [-> | [-> | [-> | ->]]]]]]]]]]];
      simpl MonthStart in *; lia. }
  assert (Hdiy : DayWithinYear tv = MonthStart m (InLeapYear y) + date - 1).
  { unfold DayWithinYear. rewrite Hyear. lia. }
  assert (Hmonth : MonthFromTime tv = m).
  { unfold MonthFromTime. cbv zeta. rewrite Hyear, Hdiy.
    set (leap := InLeapYear y) in *.
    destruct (month_cases m Hm) as
      [-> | [-> | [-> | [-> | [-> | [-> | [-> | [-> | [-> | [-> | [-> | ->]]]]]]]]]]];
      simpl MonthStart in *;
      repeat match goal with
             | |- context [if ?a <? ?b then _ else _] => destruct (Z.ltb_spec a b)
             end; lia. }
  split; [exact Hyear |]. split; [exact Hmonth |].
  unfold DateFromTime. rewrite Hmonth, Hyear, Hdiy. lia.
Qed.

(** The first day of a month does not move by more than a day between a
    year and the next. *)
Lemma MonthStart_leap (m l l' : Z) :
  0 <= l <= 1 -> 0 <= l' <= 1 -> MonthStart m l' - MonthStart m l <= 1.
Proof.
  intros Hl Hl'. unfold MonthStart.
  destruct m as [| p | p]; try lia.
  do 4 (try destruct p as [p | p |]); lia.
Qed.

Lemma MonthStart_next (m l : Z) :
  0 <= m <= 11 -> 0 <= l <= 1 -> 28 <= MonthStart (m + 1) l - MonthStart m l <= 31.
Proof.
  intros Hm Hl.
  destruct (month_cases m Hm) as
    [-> | [-> | [-> | [-> | [-> | [-> | [-> | [-> | [-> | [-> | [-> | ->]]]]]]]]]]];
    simpl MonthStart; lia.
Qed.

(** Day 0 of the month after month [m] of the next year is the last day of
    month [m] of the next year. *)
Lemma MakeDay_end_of_month (y m : Z) :
  0 <= m <= 11 ->
  MakeDay y (m + 12 + 1) 0
  = DayFromYear (y + 1) + MonthStart (m + 1) (InLeapYear (y + 1)) - 1.
Proof.
  intros Hm. unfold MakeDay. cbv zeta.
  assert (Hcases : m = 11 \/ (0 <= m <= 10)) by lia.
  destruct Hcases as [-> | Hm'].
  - change ((11 + 12 + 1) / 12) with 2. change ((11 + 12 + 1) mod 12) with 0.
    change (11 + 1) with 12. cbn [MonthStart].
    replace (y + 2) with (y + 1 + 1) by lia.
    rewrite (DayFromYear_succ (y + 1)), DaysInYear_leap. lia.
  - assert (Hq : (m + 12 + 1) / 12 = 1) by (Z.div_mod_to_equations; lia).
    assert (Hr : (m + 12 + 1) mod 12 = m + 1) by (Z.div_mod_to_equations; lia).
    rewrite Hq, Hr. lia.
Qed.

Lemma MakeDay_same_year (y m date : Z) :
  0 <= m <= 11 ->
  MakeDay y m date = DayFromYear y + MonthStart m (InLeapYear y) + date - 1.
Proof.
  intros Hm. unfold MakeDay. cbv zeta.
  assert (Hq : m / 12 = 0) by (Z.div_mod_to_equations; lia).
  assert (Hr : m mod 12 = m) by (Z.div_mod_to_equations; lia).
  rewrite Hq, Hr, Z.add_0_r. reflexivity.
Qed.

Lemma MakeDate_within (tv day n : Z) :
  day <= Day tv + n -> MakeDate day (TimeWithinDay tv) <= tv + n * msPerDay.
Proof.
  unfold Day, MakeDate, TimeWithinDay, msPerDay. intros Hd.
  Z.div_mod_to_equations. nia.
Qed.

(** A year later is at most 367 days later. *)
Lemma addMonths_12_within (tv : Z) : addMonths tv 12 <= tv + 367 * msPerDay.
Proof.
  unfold addMonths. change (12 =? 0) with false. cbv iota zeta.
  unfold setMonth, setFullYear, getDate, getFullYear, Date_getMonth.
  pose proof (MonthFromTime_range tv) as Hm.
  pose proof (MonthFromTime_spec tv) as Hin.
  pose proof (TimeWithinDay_range tv) as Htime.
  pose proof (InLeapYear_range (YearFromTime tv)) as Hl.
  pose proof (InLeapYear_range (YearFromTime tv + 1)) as Hl'.
  pose proof (MonthStart_next (MonthFromTime tv) _ Hm Hl') as Hlen.
  pose proof (MonthStart_leap (MonthFromTime tv) _ _ Hl Hl') as Hshift.
  assert (Hday : Day tv = DayFromYear (YearFromTime tv) + DayWithinYear tv)
    by (unfold DayWithinYear; lia).
  assert (Hdom : DateFromTime tv
                 = DayWithinYear tv
                   - MonthStart (MonthFromTime tv) (InLeapYear (YearFromTime tv)) + 1)
    by reflexivity.
  pose proof (DayFromYear_succ (YearFromTime tv)) as Hnext.
  rewrite DaysInYear_leap in Hnext.
  rewrite (MakeDay_end_of_month _ _ Hm).
  set (y := YearFromTime tv) in *. set (m := MonthFromTime tv) in *.
  set (endDay := DayFromYear (y + 1) + MonthStart (m + 1) (InLeapYear (y + 1)) - 1).
  set (endOfDesiredMonth := MakeDate endDay (TimeWithinDay tv)).
  destruct (calendar_of_day endOfDesiredMonth (y + 1) m
              (MonthStart (m + 1) (InLeapYear (y + 1))
               - MonthStart m (InLeapYear (y + 1))) Hm)
    as (Hy' & Hm' & Hd').
  { unfold endOfDesiredMonth. rewrite Day_MakeDate by exact Htime.
    unfold endDay. lia. }
  { lia. }
  rewrite Hy', Hm', Hd'.
  case_match.
  - apply MakeDate_within. unfold endDay. lia.
  - apply MakeDate_within. rewrite (MakeDay_same_year _ _ _ Hm). lia.
Qed.

(** On a host in UTC, [addYears date 1] is later than [date] by at most
    [yearStep] seconds, whatever the range of timestamps. *)
#[export] Instance JsDate_forward_within (lo hi : Z) :
  DateFnsForwardWithin JsDate.Date lo hi yearStep.
Proof.
  intros t _. change (t < addMonths (t * 1000) 12 / 1000 <= t + yearStep).
  pose proof (addMonths_12_later (t * 1000)) as Hlater.
  pose proof (addMonths_12_within (t * 1000)) as Hwithin.
  unfold msPerDay in Hlater, Hwithin. unfold yearStep.
  Z.div_mod_to_equations. lia.
Qed.

End JsDateFacts.

(** ** The projection loop *)

Section LoopFacts.
Import EquilibriumWidget.
Context {Date : Type} `{DateFns Date}.
Implicit Types (staked f issuance : number) (historic : list Point) (seed : Point).

Lemma for_loop_succ {S : Type} (n : nat) (body : S -> S) (s : S) :
  for_loop (Datatypes.S n) body s = body (for_loop n body s).
Proof.
  revert s. induction n as [| n IH]; intros s; [reflexivity |].
  change (for_loop (Datatypes.S (Datatypes.S n)) body s)
    with (for_loop (Datatypes.S n) body (body s)).
  rewrite IH. reflexivity.
Qed.

Lemma loop_after_succ k staked f historic seed :
  loop_after (S k) staked f historic seed
  = loop_body staked (getIssuance staked) f (loop_after k staked f historic seed).
Proof. unfold loop_after. apply for_loop_succ. Qed.

(** The loop keeps [nonStaked] equal to the current supply less the stake. *)
Lemma loop_after_nonStaked k staked f historic seed :
  (loop_after k staked f historic seed).(nonStaked)
  = ((loop_after k staked f historic seed).(supply).2 - staked)%float.
Proof.
  destruct k as [| k]; [reflexivity |].
  rewrite loop_after_succ. reflexivity.
Qed.

(** Each turn pushes the new point on the series. *)
Lemma loop_after_series k staked f historic seed :
  (loop_after k staked f historic seed).(series)
  = historic
    ++ map (fun i => (loop_after (S i) staked f historic seed).(supply)) (seq 0 k).
Proof.
  induction k as [| k IH].
  - simpl. rewrite app_nil_r. reflexivity.
  - rewrite seq_S, map_app, app_assoc, <- IH. simpl.
    rewrite loop_after_succ. reflexivity.
Qed.

Lemma loop_after_series_length k staked f historic seed :
  length (loop_after k staked f historic seed).(series) = (length historic + k)%nat.
Proof. rewrite loop_after_series, length_app, length_map, length_seq. reflexivity. Qed.

(** The point at position [length historic + i] is the supply after turn [i + 1]. *)
Lemma loop_after_series_lookup k i staked f historic seed :
  (i < k)%nat ->
  (loop_after k staked f historic seed).(series) !! (length historic + i)%nat
  = Some (loop_after (S i) staked f historic seed).(supply).
Proof.
  intros Hi. rewrite loop_after_series, lookup_app_r by lia.
  replace (length historic + i - length historic)%nat with i by lia.
  rewrite list_lookup_fmap, lookup_seq_lt by lia. reflexivity.
Qed.

(** The seed is the last point of the history the series starts with. *)
Lemma loop_after_series_seed k staked f historic seed :
  NEA_last historic = Some seed ->
  (loop_after k staked f historic seed).(series) !! (length historic - 1)%nat
  = Some seed.
Proof.
  intros Hlast. rewrite loop_after_series.
  unfold NEA_last in Hlast. rewrite last_lookup in Hlast.
  assert (length historic <> 0)%nat.
  { destruct historic; [discriminate | simpl; lia]. }
  rewrite lookup_app_l by lia.
  rewrite <- Hlast. f_equal. lia.
Qed.

(** What [equilibriums] returns, in terms of the loop. *)
Lemma equilibriums_returns staked f (inputs : SupplyInputs) historic seed :
  NEA_last historic = Some seed ->
  equilibriums (Some staked) (Some f) (Some inputs) (Some historic)
  = Returned (Some
      {| cashFlowsEquilibrium := getIssuance staked;
         nonStakedSupplyEquilibrium := (loop_after 200 staked f historic seed).(nonStaked);
         supplyEquilibrium := (loop_after 200 staked f historic seed).(supply).2;
         supplyEquilibriumMap :=
           fold_left (fun (map : gmap Z number) '(t, v) => <[t := v]> map)
                     (loop_after 200 staked f historic seed).(series) ∅;
         supplyEquilibriumSeries := (loop_after 200 staked f historic seed).(series);
         yearlyIssuanceFraction := (getIssuance staked / staked)%float |}).
Proof.
  intros Hlast. unfold equilibriums, loop_after, loop_start.
  rewrite Hlast. cbv zeta. reflexivity.
Qed.

(** The amounts of the loop do not depend on the dates. *)
Lemma loop_after_amounts k staked f historic seed :
  ((loop_after k staked f historic seed).(supply).2,
   (loop_after k staked f historic seed).(nonStaked))
  = amounts_after k staked f seed.2.
Proof.
  induction k as [| k IH]; [reflexivity |].
  rewrite loop_after_succ. unfold amounts_after. rewrite for_loop_succ.
  fold (amounts_after k staked f seed.2). rewrite <- IH. reflexivity.
Qed.

End LoopFacts.

Arguments EquilibriumWidget.for_loop : simpl never.
Arguments EquilibriumWidget.loop_after : simpl never.
Arguments EquilibriumWidget.amounts_after : simpl never.

(** ** The projection *)

Section ProjectionFacts.
Import EquilibriumWidget.
Context {Date : Type} `{DateFns Date}.
Implicit Types (staked f : number) (historic : list Point) (seed : Point).

(** Claim C2.  With the last historic point as seed, the loop takes 200
    turns.  Turn [k + 1] sets the supply to the supply of turn [k] plus the
    issuance less the burn, the burn being the burn fraction times the
    non-staked supply of turn [k], and sets the non-staked supply to the new
    supply less the stake.  The 200 supplies are pushed on the series in
    order, and the values returned as equilibrium are those of turn 200. *)
Theorem C2_yearly_step staked f (inputs : SupplyInputs) historic seed :
  NEA_last historic = Some seed ->
  let issuance := getIssuance staked in
  let s := fun k : nat => loop_after k staked f historic seed in
  (forall k : nat, (k < 200)%nat ->
     (s (S k)).(supply).2
     = ((s k).(supply).2 + issuance - f * (s k).(nonStaked))%float
     /\ (s (S k)).(nonStaked) = ((s (S k)).(supply).2 - staked)%float)
  /\ exists e : Equilibriums,
       equilibriums (Some staked) (Some f) (Some inputs) (Some historic)
       = Returned (Some e)
       /\ e.(supplyEquilibriumSeries)
          = historic ++ map (fun k => (s (S k)).(supply)) (seq 0 200)
       /\ length e.(supplyEquilibriumSeries) = (length historic + 200)%nat
       /\ e.(supplyEquilibrium) = (s 200%nat).(supply).2
       /\ e.(nonStakedSupplyEquilibrium) = (s 200%nat).(nonStaked).
Proof.
  intros Hlast issuance s. split.
  - intros k _. unfold s. rewrite loop_after_succ. split; reflexivity.
  - eexists. split; [apply (equilibriums_returns _ _ _ _ _ Hlast) |].
    cbn [supplyEquilibriumSeries supplyEquilibrium nonStakedSupplyEquilibrium].
    split; [apply loop_after_series |].
    split; [apply loop_after_series_length |].
    split; reflexivity.
Qed.

(** Claim C10.  Before the first turn and after every turn of the loop,
    [nonStaked] is the current supply less the stake; every turn is the same
    step with the one issuance [getIssuance staked]; and the values returned
    satisfy the three equations of the claim. *)
Theorem C10_loop_invariant staked f (inputs : SupplyInputs) historic seed :
  NEA_last historic = Some seed ->
  let s := fun k : nat => loop_after k staked f historic seed in
  (forall k : nat, (k <= 200)%nat ->
     (s k).(nonStaked) = ((s k).(supply).2 - staked)%float)
  /\ (forall k : nat, (k < 200)%nat ->
        s (S k) = loop_body staked (getIssuance staked) f (s k))
  /\ exists e : Equilibriums,
       equilibriums (Some staked) (Some f) (Some inputs) (Some historic)
       = Returned (Some e)
       /\ e.(nonStakedSupplyEquilibrium) = (e.(supplyEquilibrium) - staked)%float
       /\ e.(cashFlowsEquilibrium) = getIssuance staked
       /\ e.(yearlyIssuanceFraction) = (getIssuance staked / staked)%float.
Proof.
  intros Hlast s. split; [| split].
  - intros k _. apply loop_after_nonStaked.
  - intros k _. apply loop_after_succ.
  - eexists. split; [apply (equilibriums_returns _ _ _ _ _ Hlast) |].
    cbn [nonStakedSupplyEquilibrium supplyEquilibrium cashFlowsEquilibrium
         yearlyIssuanceFraction].
    split; [apply loop_after_nonStaked |]. split; reflexivity.
Qed.

(** The history of a non-empty supply series is not empty, and no longer
    than the series. *)
Lemma historicSupplyByMonth_nonempty (inputs : SupplyInputs) :
  inputs.(supplyByDay) <> [] ->
  exists historic seed,
    historicSupplyByMonth (Some inputs) = Some historic
    /\ NEA_last historic = Some seed
    /\ (1 <= length historic <= length inputs.(supplyByDay))%nat.
Proof.
  intros Hne. unfold historicSupplyByMonth.
  match goal with |- context [fold_left ?g _ _] => set (step := g) end.
  assert (Hstep : forall xs acc,
             (1 <= length acc)%nat ->
             (1 <= length (fold_left step xs acc) <= length acc + length xs)%nat).
  { induction xs as [| x xs IH]; intros acc Hacc; [simpl; lia |].
    simpl fold_left.
    assert (Hs : (1 <= length (step acc x) <= length acc + 1)%nat).
    { unfold step. destruct (last acc) as [l |]; [| simpl; lia].
      destruct (negb _); [rewrite length_app; simpl; lia | lia]. }
    specialize (IH (step acc x) ltac:(lia)). simpl length. lia. }
  destruct (supplyByDay inputs) as [| x xs]; [congruence |].
  simpl fold_left. change (step [] x) with [(x.(t), x.(v))].
  specialize (Hstep xs [(x.(t), x.(v))] ltac:(simpl; lia)).
  simpl length in Hstep.
  destruct (last (fold_left step xs [(x.(t), x.(v))])) as [seed |] eqn:Hlast.
  - eexists. exists seed. split; [reflexivity |]. split; [exact Hlast |].
    simpl length. lia.
  - apply last_None in Hlast. rewrite Hlast in Hstep. simpl in Hstep. lia.
Qed.

Lemma loop_after_timestamp k staked f historic seed :
  (loop_after (S k) staked f historic seed).(supply).1
  = getUnixTime (addYears (fromUnixTime (loop_after k staked f historic seed).(supply).1) 1).
Proof. rewrite loop_after_succ. reflexivity. Qed.

End ProjectionFacts.

(** ** The history by month *)

Section HistoryFacts.
Import EquilibriumWidget.
Context {Date : Type} `{DateFns Date}.

(** The callback of the [reduce] in [historicSupplyByMonth]. *)
Lemma historicSupplyByMonth_fold (inputs : SupplyInputs) :
  historicSupplyByMonth (Some inputs)
  = Some (fold_left
            (fun (list : list Point) (point : DataPoint) =>
               match last list with
               | None => [toPoint point]
               | Some l =>
                   if negb (monthOf l.1 =? monthOf point.(t))%Z
                   then list ++ [toPoint point]
                   else list
               end)
            inputs.(supplyByDay) []).
Proof. reflexivity. Qed.

(** One more day at the end of the supply series. *)
Lemma historicSupplyByMonth_snoc (b days : list DataPoint) (day : DataPoint)
    (historic : list Point) :
  historicSupplyByMonth
    (Some {| inBeaconValidatorsByDay := b; supplyByDay := days |}) = Some historic ->
  historicSupplyByMonth
    (Some {| inBeaconValidatorsByDay := b; supplyByDay := days ++ [day] |})
  = Some (match last historic with
          | None => [toPoint day]
          | Some l =>
              if negb (monthOf l.1 =? monthOf day.(t))%Z
              then historic ++ [toPoint day]
              else historic
          end).
Proof.
  rewrite !historicSupplyByMonth_fold. cbn [supplyByDay].
  intros [= <-]. rewrite fold_left_app. reflexivity.
Qed.

(** What the [reduce] keeps, by induction on the days from the last. *)
Lemma history_invariants (b days : list DataPoint) (historic : list Point) :
  historicSupplyByMonth
    (Some {| inBeaconValidatorsByDay := b; supplyByDay := days |}) = Some historic ->
  sublist historic (toPoint <$> days)
  /\ head historic = head (toPoint <$> days)
  /\ (days = [] <-> historic = [])
  /\ (forall (i : nat) (p q : Point),
        historic !! i = Some p -> historic !! S i = Some q ->
        monthOf p.1 <> monthOf q.1)
  /\ (forall (l : Point) (d : DataPoint),
        last historic = Some l -> last days = Some d ->
        monthOf l.1 = monthOf d.(t)).
Proof.
  revert historic. induction days as [| day days IH] using rev_ind; intros historic Hh.
  - injection Hh as <-. repeat split; try done.
  - destruct (historicSupplyByMonth
                (Some {| inBeaconValidatorsByDay := b; supplyByDay := days |}))
      as [h0 |] eqn:Hh0; [| discriminate].
    rewrite (historicSupplyByMonth_snoc b days day h0 Hh0) in Hh.
    injection Hh as <-.
    destruct (IH h0 eq_refl) as (Hsub & Hhead & Hnil & Hadj & Hlast).
    rewrite fmap_app. cbn [fmap list_fmap].
    destruct (last h0) as [l |] eqn:Hl.
    + assert (Hne : h0 <> []) by (intros ->; discriminate).
      assert (Hdays : days <> []) by (intros Hd; apply Hne, Hnil, Hd).
      destruct (monthOf l.1 =? monthOf day.(t))%Z eqn:Hm; cbn [negb].
      * (* the day is of the month of the last point kept: dropped *)
        apply Z.eqb_eq in Hm.
        split; [apply sublist_inserts_r; exact Hsub |].
        split; [rewrite Hhead; destruct days; [done | reflexivity] |].
        split; [split; intros Hx; [destruct days; discriminate | contradiction] |].
        split; [exact Hadj |].
        intros l' d Hl' Hd. rewrite last_snoc in Hd. injection Hd as <-.
        congruence.
      * (* a new month: kept *)
        apply Z.eqb_neq in Hm.
        split; [apply sublist_app; [exact Hsub | reflexivity] |].
        split; [destruct h0; [done |]; destruct days; [done |]; exact Hhead |].
        split; [split; intros Hx; [destruct days; discriminate | destruct h0; discriminate] |].
        split.
        -- intros i p q Hp Hq.
           destruct (decide (S i < length h0)%nat) as [Hlt | Hge].
           ++ rewrite lookup_app_l in Hp, Hq by lia. eapply Hadj; eassumption.
           ++ assert (Hi : S i = length h0).
              { apply lookup_lt_Some in Hq. rewrite length_app in Hq. simpl in Hq. lia. }
              rewrite lookup_app_l in Hp by lia.
              rewrite lookup_app_r in Hq by lia.
              rewrite Hi, Nat.sub_diag in Hq. injection Hq as <-.
              rewrite last_lookup in Hl.
              replace (pred (length h0)) with i in Hl by lia.
              rewrite Hp in Hl. injection Hl as ->. exact Hm.
        -- intros l' d Hl' Hd. rewrite last_snoc in Hl'. rewrite last_snoc in Hd.
           injection Hl' as <-. injection Hd as <-. reflexivity.
    + apply last_None in Hl. subst h0.
      assert (Hdays : days = []) by (apply Hnil; reflexivity). subst days.
      split; [reflexivity |]. split; [reflexivity |].
      split; [split; discriminate |].
      split.
      * intros i p q Hp Hq. destruct i; discriminate.
      * intros l d [= <-] [= <-]. reflexivity.
Qed.

(** The history by month is a selection of the days of the supply series,
    in their order, as points: it begins with the first day, and it is empty
    only for an empty series. *)
Theorem historicSupplyByMonth_sublist (inputs : SupplyInputs) (historic : list Point) :
  historicSupplyByMonth (Some inputs) = Some historic ->
  sublist historic (toPoint <$> inputs.(supplyByDay))
  /\ head historic = head (toPoint <$> inputs.(supplyByDay))
  /\ (inputs.(supplyByDay) = [] <-> historic = []).
Proof.
  destruct inputs as [b days]. intros Hh.
  destruct (history_invariants b days historic Hh) as (H1 & H2 & H3 & _).
  cbn [supplyByDay]. auto.
Qed.

(** Two neighbours in the history by month are of different months, and the
    last point of the history is of the month of the last day of the supply
    series. *)
Theorem historicSupplyByMonth_months (inputs : SupplyInputs) (historic : list Point) :
  historicSupplyByMonth (Some inputs) = Some historic ->
  (forall (i : nat) (p q : Point),
     historic !! i = Some p -> historic !! S i = Some q ->
     monthOf p.1 <> monthOf q.1)
  /\ (forall (l : Point) (d : DataPoint),
        last historic = Some l -> last inputs.(supplyByDay) = Some d ->
        monthOf l.1 = monthOf d.(t)).
Proof.
  destruct inputs as [b days]. intros Hh.
  destruct (history_invariants b days historic Hh) as (_ & _ & _ & H4 & H5).
  cbn [supplyByDay]. auto.
Qed.

(** A further day at the end of the supply series changes nothing when it is
    of the month of the day before it, neither the history nor what
    [equilibriums] returns; a day of another month is added to the history as
    its last point, which the projection then starts from. *)
Theorem historicSupplyByMonth_next_day (b days : list DataPoint) (d day : DataPoint)
    (historic : list Point) :
  last days = Some d ->
  historicSupplyByMonth
    (Some {| inBeaconValidatorsByDay := b; supplyByDay := days |}) = Some historic ->
  (monthOf d.(t) = monthOf day.(t) ->
   historicSupplyByMonth
     (Some {| inBeaconValidatorsByDay := b; supplyByDay := days ++ [day] |})
   = Some historic
   /\ forall (stakedSupply nonStakedSupplyBurnFraction : option number),
        equilibriums stakedSupply nonStakedSupplyBurnFraction
          (Some {| inBeaconValidatorsByDay := b; supplyByDay := days ++ [day] |})
          (historicSupplyByMonth
             (Some {| inBeaconValidatorsByDay := b; supplyByDay := days ++ [day] |}))
        = equilibriums stakedSupply nonStakedSupplyBurnFraction
            (Some {| inBeaconValidatorsByDay := b; supplyByDay := days |})
            (historicSupplyByMonth
               (Some {| inBeaconValidatorsByDay := b; supplyByDay := days |})))
  /\ (monthOf d.(t) <> monthOf day.(t) ->
      historicSupplyByMonth
        (Some {| inBeaconValidatorsByDay := b; supplyByDay := days ++ [day] |})
      = Some (historic ++ [toPoint day])).
Proof.
  intros Hd Hh.
  destruct (history_invariants b days historic Hh) as (_ & _ & Hnil & _ & Hlast).
  assert (Hl : exists l, last historic = Some l).
  { destruct (last historic) as [l |] eqn:E; [eauto |].
    apply last_None in E. apply Hnil in E. subst days. discriminate. }
  destruct Hl as [l Hl].
  pose proof (Hlast l d Hl Hd) as Hmonth.
  pose proof (historicSupplyByMonth_snoc b days day historic Hh) as Hsnoc.
  rewrite Hl, Hmonth in Hsnoc.
  split.
  - intros Hsame. rewrite Hsame, Z.eqb_refl in Hsnoc. cbn [negb] in Hsnoc.
    split; [exact Hsnoc |].
    intros stakedSupply nonStakedSupplyBurnFraction. rewrite Hsnoc, Hh.
    unfold equilibriums. reflexivity.
  - intros Hdiff. apply Z.eqb_neq in Hdiff. rewrite Hdiff in Hsnoc. exact Hsnoc.
Qed.

End HistoryFacts.

(** ** The shape of the series *)

Section SeriesShape.
Import EquilibriumWidget.
Context {Date : Type} `{DateFns Date}.
Implicit Types (staked f : number) (historic : list Point) (seed : Point).

(** The seed of the projection is a day of the supply series. *)
Lemma seed_is_a_day (inputs : SupplyInputs) historic seed :
  historicSupplyByMonth (Some inputs) = Some historic ->
  NEA_last historic = Some seed ->
  exists day : DataPoint, day ∈ inputs.(supplyByDay) /\ seed.1 = day.(t).
Proof.
  destruct inputs as [b days]. cbn [supplyByDay]. intros Hhist Hlast.
  destruct (history_invariants b days historic Hhist) as (Hsub & _).
  assert (Hin : seed ∈ historic).
  { unfold NEA_last in Hlast. rewrite last_lookup in Hlast.
    eapply list_elem_of_lookup_2. exact Hlast. }
  apply (sublist_submseteq _ _) in Hsub.
  apply (elem_of_submseteq _ _ _ Hin) in Hsub.
  apply list_elem_of_fmap_1 in Hsub as (day & -> & Hday).
  exists day. split; [exact Hday | reflexivity].
Qed.

(** While the dates stay in the range where the date library moves a date
    forward, the timestamps of the loop increase, by at most [step] a turn. *)
Lemma loop_after_timestamp_within (lo hi step : Z)
    `{!DateFnsForwardWithin Date lo hi step} staked f historic seed (k : nat) :
  (0 <= step)%Z -> (lo <= seed.1)%Z -> (seed.1 + 199 * step <= hi)%Z ->
  (k < 200)%nat ->
  (seed.1 <= (loop_after k staked f historic seed).(supply).1
           <= seed.1 + Z.of_nat k * step)%Z
  /\ ((loop_after k staked f historic seed).(supply).1
      < (loop_after (S k) staked f historic seed).(supply).1
      <= (loop_after k staked f historic seed).(supply).1 + step)%Z.
Proof.
  intros Hstep Hlo Hhi. induction k as [| k IH]; intros Hk.
  - assert (Hnow : (loop_after 0 staked f historic seed).(supply).1 = seed.1)
      by reflexivity.
    rewrite loop_after_timestamp, Hnow.
    split; [lia |]. apply addYears_within. lia.
  - destruct (IH ltac:(lia)) as [Hrange Hnext].
    assert (Hin : (seed.1 <= (loop_after (S k) staked f historic seed).(supply).1
                          <= seed.1 + Z.of_nat (S k) * step)%Z) by nia.
    split; [exact Hin |].
    rewrite (loop_after_timestamp (S k)). apply addYears_within. nia.
Qed.

(** Claim C1, as amended.  The series is the history by month followed by
    200 projected points: it has [length historic + 200] points, [historic]
    having between one point and as many points as the supply series.  When
    the days of the supply series lie in a range of timestamps on which the
    date library moves a date forward by a year of at most [step] seconds,
    200 such years before its end, the last 201 points of the series, the
    seed (the last historic point) and the 200 projected ones, have strictly
    increasing timestamps, each the timestamp before it moved one year on by
    the date library. *)
Theorem C1_series_shape (lo hi step : Z) `{!DateFnsForwardWithin Date lo hi step}
    staked f (inputs : SupplyInputs) :
  inputs.(supplyByDay) <> [] ->
  exists (historic : list Point) (seed : Point) (e : Equilibriums),
    historicSupplyByMonth (Some inputs) = Some historic
    /\ NEA_last historic = Some seed
    /\ equilibriums (Some staked) (Some f) (Some inputs) (Some historic)
       = Returned (Some e)
    /\ length e.(supplyEquilibriumSeries) = (length historic + 200)%nat
    /\ (1 <= length historic <= length inputs.(supplyByDay))%nat
    /\ take (length historic) e.(supplyEquilibriumSeries) = historic
    /\ ((0 <= step)%Z ->
        Forall (fun day => (lo <= day.(t) /\ day.(t) + 199 * step <= hi)%Z)
               inputs.(supplyByDay) ->
        forall i : nat, (i < 200)%nat ->
          exists p q : Point,
            e.(supplyEquilibriumSeries) !! (length historic - 1 + i)%nat = Some p
            /\ e.(supplyEquilibriumSeries) !! (length historic + i)%nat = Some q
            /\ q.1 = getUnixTime (addYears (fromUnixTime p.1) 1)
            /\ (p.1 < q.1)%Z).
Proof.
  intros Hne.
  destruct (historicSupplyByMonth_nonempty inputs Hne)
    as (historic & seed & Hhist & Hlast & Hlen).
  exists historic, seed. eexists.
  split; [exact Hhist |]. split; [exact Hlast |].
  split; [apply (equilibriums_returns _ _ _ _ _ Hlast) |].
  cbn [supplyEquilibriumSeries].
  split; [apply loop_after_series_length |]. split; [exact Hlen |].
  split.
  { rewrite loop_after_series. rewrite take_app_length. reflexivity. }
  intros Hstep Hdays i Hi.
  destruct (seed_is_a_day inputs historic seed Hhist Hlast) as (day & Hday & Hseed).
  rewrite Forall_forall in Hdays. specialize (Hdays day Hday). rewrite <- Hseed in Hdays.
  assert (Hmove : forall k, (k < 200)%nat ->
    ((loop_after k staked f historic seed).(supply).1
     < (loop_after (S k) staked f historic seed).(supply).1)%Z).
  { intros k Hk.
    destruct (loop_after_timestamp_within lo hi step staked f historic seed k
                Hstep ltac:(lia) ltac:(lia) Hk) as [_ Hnext]. lia. }
  destruct i as [| j].
  - exists seed, (loop_after 1 staked f historic seed).(supply).
    rewrite Nat.add_0_r.
    split; [apply loop_after_series_seed; exact Hlast |].
    split; [apply loop_after_series_lookup; lia |].
    split; [apply (loop_after_timestamp 0) | apply (Hmove 0%nat); lia].
  - exists (loop_after (S j) staked f historic seed).(supply),
           (loop_after (S (S j)) staked f historic seed).(supply).
    replace (length historic - 1 + S j)%nat with (length historic + j)%nat by lia.
    split; [apply loop_after_series_lookup; lia |].
    split; [apply loop_after_series_lookup; lia |].
    split; [apply loop_after_timestamp | apply Hmove; lia].
Qed.

End SeriesShape.

(** ** The issuance *)

Section IssuanceFacts.
Import EquilibriumWidget.
Open Scope float_scope.

Lemma stakedSupplySlider_in (j : nat) :
  (j <= stakedSupplySteps)%nat -> In j (seq 0 (S stakedSupplySteps)).
Proof. intros Hj. apply in_seq. lia. Qed.

(** Claim C3, as amended.  [getIssuance] is the issuance per epoch times
    the 82,181.25 epochs of a year, divided by the Gwei of an ETH, and the
    issuance per epoch is the truncated quotient of 64 times the balance at
    stake by the floor of its square root, each operation being that of
    binary64 arithmetic on the balance the code derives from the stake.  On
    each of the 251 stakes of the slider these operations are exact where
    the claim needs it: the balance at stake is the stake in Gwei, the floor
    of its square root is the integer square root, and the issuance per
    epoch is the integer the formula gives in exact arithmetic. *)
Theorem C3_issuance_formula :
  (forall stakedSupply : number,
     getIssuance stakedSupply
     = max_issuance_per_epoch_of stakedSupply * EPOCHS_PER_YEAR / GWEI_PER_ETH
     /\ max_issuance_per_epoch_of stakedSupply
        = Math_trunc
            (BASE_REWARD_FACTOR * max_balance_at_stake_of stakedSupply
             / Math_floor (Math_sqrt (max_balance_at_stake_of stakedSupply))))
  /\ EPOCHS_PER_YEAR = 82181.25
  /\ forall j : nat, (j <= stakedSupplySteps)%nat ->
       integer_value (stakedSupplySlider j) = Some (stakedSupplyETH j)
       /\ integer_value (max_balance_at_stake_of (stakedSupplySlider j))
          = Some (stakedSupplyETH j * 10 ^ 9)%Z
       /\ integer_value
            (Math_floor (Math_sqrt (max_balance_at_stake_of (stakedSupplySlider j))))
          = Some (Z.sqrt (stakedSupplyETH j * 10 ^ 9))
       /\ integer_value (max_issuance_per_epoch_of (stakedSupplySlider j))
          = Some (spec_issuance_per_epoch (stakedSupplyETH j * 10 ^ 9)).
Proof.
  split; [intros stakedSupply; split; reflexivity |].
  split; [vm_compute; reflexivity |].
  intros j Hj.
  set (P := fun j : nat =>
    integer_value (stakedSupplySlider j) = Some (stakedSupplyETH j)
    /\ integer_value (max_balance_at_stake_of (stakedSupplySlider j))
       = Some (stakedSupplyETH j * 10 ^ 9)%Z
    /\ integer_value
         (Math_floor (Math_sqrt (max_balance_at_stake_of (stakedSupplySlider j))))
       = Some (Z.sqrt (stakedSupplyETH j * 10 ^ 9))
    /\ integer_value (max_issuance_per_epoch_of (stakedSupplySlider j))
       = Some (spec_issuance_per_epoch (stakedSupplyETH j * 10 ^ 9))).
  assert (Hall : forallb (fun j => bool_decide (P j)) (seq 0 (S stakedSupplySteps))
                 = true) by (vm_compute; reflexivity).
  rewrite forallb_forall in Hall.
  specialize (Hall j (stakedSupplySlider_in j Hj)).
  apply bool_decide_eq_true in Hall. exact Hall.
Qed.

(** Claim C5, as amended.  On the stakes of the slider the issuance is
    strictly increasing. *)
Theorem C5_issuance_increasing_on_slider (i j : nat) :
  (i < j)%nat -> (j <= stakedSupplySteps)%nat ->
  (stakedSupplySlider i <? stakedSupplySlider j) = true
  /\ (getIssuance (stakedSupplySlider i) <? getIssuance (stakedSupplySlider j)) = true.
Proof.
  intros Hij Hj.
  assert (Hall :
    forallb (fun i =>
      forallb (fun j =>
        implb (Nat.ltb i j)
              ((stakedSupplySlider i <? stakedSupplySlider j)
               && (getIssuance (stakedSupplySlider i)
                   <? getIssuance (stakedSupplySlider j))))
        (seq 0 (S stakedSupplySteps)))
      (seq 0 (S stakedSupplySteps)) = true) by (vm_compute; reflexivity).
  rewrite forallb_forall in Hall.
  specialize (Hall i (stakedSupplySlider_in i ltac:(lia))).
  rewrite forallb_forall in Hall.
  specialize (Hall j (stakedSupplySlider_in j Hj)).
  apply Nat.ltb_lt in Hij. rewrite Hij in Hall. cbn [implb] in Hall.
  apply andb_prop in Hall. exact Hall.
Qed.

End IssuanceFacts.

(** ** The trend of the non-staked supply *)

Section TrendFacts.
Import EquilibriumWidget.
Open Scope float_scope.
Context {Date : Type} `{DateFns Date}.
Implicit Types (staked f : number) (historic : list Point) (seed : Point).

Lemma trend_follows_for_spec (n : nat) staked f (a : number * number) (k : nat) :
  trend_follows_for n staked f a = true ->
  (k < n)%nat ->
  trend_follows staked f
    (for_loop k (amounts_step staked (getIssuance staked) f) a) = true.
Proof.
  revert a k. induction n as [| n IH]; intros a k Hall Hk; [lia |].
  cbn [trend_follows_for] in Hall. apply andb_prop in Hall as [Hnow Hlater].
  destruct k as [| k]; [exact Hnow |].
  change (for_loop (S k) (amounts_step staked (getIssuance staked) f) a)
    with (for_loop k (amounts_step staked (getIssuance staked) f)
            (amounts_step staked (getIssuance staked) f a)).
  apply IH; [exact Hlater | lia].
Qed.

(** [trend_follows] at the amounts of turn [k] speaks of the non-staked
    supplies of turns [k] and [k + 1]. *)
Lemma trend_follows_loop k staked f historic seed :
  trend_follows staked f (amounts_after k staked f seed.2) = true ->
  let s := loop_after k staked f historic seed in
  let s' := loop_after (S k) staked f historic seed in
  let issuance := getIssuance staked in
  let burn := getBurn f s.(nonStaked) in
  ((issuance <? burn) = true -> (s'.(nonStaked) <? s.(nonStaked)) = true)
  /\ ((burn <? issuance) = true -> (s.(nonStaked) <? s'.(nonStaked)) = true)
  /\ ((burn =? issuance) = true -> (s'.(nonStaked) =? s.(nonStaked)) = true).
Proof.
  intros Hfollows s s' issuance burn.
  assert (Hs' : s'.(nonStaked)
                = (amounts_step staked issuance f
                     (s.(supply).2, s.(nonStaked))).2).
  { unfold s'. rewrite loop_after_succ. reflexivity. }
  rewrite <- (loop_after_amounts k staked f historic seed) in Hfollows.
  fold s in Hfollows. unfold trend_follows in Hfollows. cbv zeta in Hfollows.
  fold issuance in Hfollows. rewrite <- Hs' in Hfollows.
  cbn [snd] in Hfollows. fold burn in Hfollows.
  apply andb_prop in Hfollows as [Hfollows Heq].
  apply andb_prop in Hfollows as [Hdown Hup].
  split; [| split]; intros Hcmp.
  - rewrite Hcmp in Hdown. exact Hdown.
  - rewrite Hcmp in Hup. exact Hup.
  - rewrite Hcmp in Heq. exact Heq.
Qed.


End TrendFacts.

(** ** The projection and the issuance on sample inputs *)

Section ProjectionExamples.
Import JsDate EquilibriumWidget Samples.
Open Scope float_scope.

(** Claim C1 fails as stated: a supply series with days of January and of
    February 2022 gives a history of two points, hence a series of 202
    points, whose first two timestamps are a month apart. *)
Lemma C1_counterexample :
  exists e : Equilibriums,
    equilibriumsOf (loadedHooks twoMonthInputs) exampleState = Returned (Some e)
    /\ length e.(supplyEquilibriumSeries) = 202%nat
    /\ length e.(supplyEquilibriumSeries) <> 201%nat
    /\ e.(supplyEquilibriumSeries) !! 0%nat = Some (1642248000%Z, 109000000)
    /\ e.(supplyEquilibriumSeries) !! 1%nat = Some (1644926400%Z, 110000000)
    /\ getUnixTime (addYears (fromUnixTime 1642248000) 1) = 1673784000%Z
    /\ 1673784000%Z <> 1644926400%Z.
Proof.
  assert (Hhist : historicSupplyByMonth (Some twoMonthInputs)
                  = Some [(1642248000%Z, 109000000);
                          (1644926400%Z, 110000000)])
    by (vm_compute; reflexivity).
  eexists. split.
  { unfold equilibriumsOf. cbn [loadedHooks supplyProjectionInputs].
    rewrite Hhist. apply equilibriums_returns. reflexivity. }
  cbn [supplyEquilibriumSeries].
  rewrite loop_after_series_length.
  split; [reflexivity |]. split; [simpl; lia |].
  rewrite loop_after_series.
  split; [reflexivity |]. split; [reflexivity |].
  split; [vm_compute; reflexivity | lia].
Qed.

(** The example of the specification on a host in UTC.  The range is that
    of the timestamps of valid dates whose date a year later is valid as
    well, and a year has 367 days at most. *)
Lemma C1_witness :
  exampleInputs.(supplyByDay) <> []
  /\ (0 <= yearStep)%Z
  /\ Forall (fun day => (- maxUnixTime <= day.(t)
                         /\ day.(t) + 199 * yearStep <= maxUnixTime - yearStep)%Z)
            exampleInputs.(supplyByDay)
  /\ exists (historic : list Point) (e : Equilibriums),
       equilibriums (Some 10000000) (Some 0.01)
                    (Some exampleInputs) (Some historic)
       = Returned (Some e)
       /\ length e.(supplyEquilibriumSeries) = (length historic + 200)%nat
       /\ forall i : nat, (i < 200)%nat ->
            exists p q : Point,
              e.(supplyEquilibriumSeries) !! (length historic - 1 + i)%nat = Some p
              /\ e.(supplyEquilibriumSeries) !! (length historic + i)%nat = Some q
              /\ q.1 = getUnixTime (addYears (fromUnixTime p.1) 1)
              /\ (p.1 < q.1)%Z.
Proof.
  assert (Hne : exampleInputs.(supplyByDay) <> []) by (simpl; congruence).
  assert (Hstep : (0 <= yearStep)%Z) by (unfold yearStep; lia).
  assert (Hdays : Forall (fun day => (- maxUnixTime <= day.(t)
                                      /\ day.(t) + 199 * yearStep
                                         <= maxUnixTime - yearStep)%Z)
                         exampleInputs.(supplyByDay))
    by (repeat constructor; unfold yearStep, maxUnixTime; simpl; lia).
  split; [exact Hne |]. split; [exact Hstep |]. split; [exact Hdays |].
  destruct (C1_series_shape (- maxUnixTime) (maxUnixTime - yearStep) yearStep
              10000000 0.01 exampleInputs Hne)
    as (historic & seed & e & _ & _ & He & Hlen & _ & _ & Hinc).
  exists historic, e. split; [exact He |]. split; [exact Hlen |].
  exact (Hinc Hstep Hdays).
Defined.

Lemma C2_witness :
  NEA_last [(1644883200%Z, 110000000)] = Some (1644883200%Z, 110000000)
  /\ exists e : Equilibriums,
       equilibriums (Some 10000000) (Some 0.01) (Some exampleInputs)
                    (Some [(1644883200%Z, 110000000)])
       = Returned (Some e)
       /\ length e.(supplyEquilibriumSeries) = 201%nat.
Proof.
  split; [reflexivity |].
  destruct (C2_yearly_step (Date := JsDate.Date) 10000000 0.01
              exampleInputs
              [(1644883200%Z, 110000000)] (1644883200%Z, 110000000)
              eq_refl)
    as (_ & e & He & _ & Hlen & _).
  exists e. split; [exact He | exact Hlen].
Defined.

Lemma C10_witness :
  NEA_last [(1644883200%Z, 110000000)] = Some (1644883200%Z, 110000000)
  /\ exists e : Equilibriums,
       equilibriums (Some 10000000) (Some 0.01) (Some exampleInputs)
                    (Some [(1644883200%Z, 110000000)])
       = Returned (Some e)
       /\ e.(nonStakedSupplyEquilibrium) = e.(supplyEquilibrium) - 10000000
       /\ e.(cashFlowsEquilibrium) = getIssuance 10000000
       /\ e.(yearlyIssuanceFraction) = getIssuance 10000000 / 10000000.
Proof.
  split; [reflexivity |].
  exact (proj2 (proj2
    (C10_loop_invariant (Date := JsDate.Date) 10000000 0.01
       exampleInputs
       [(1644883200%Z, 110000000)] (1644883200%Z, 110000000) eq_refl))).
Defined.

(** Claim C3 fails as stated.  At a stake of 5,176,118.422000515 ETH the
    balance at stake is 5,176,118,422,000,515 Gwei, one less than the square
    of 71,945,246: its square root rounds up to 71,945,246, which
    [Math.floor] keeps, where the floor of the exact square root is
    71,945,245, and the issuance per epoch is 4,604,495,743 Gwei where the
    formula gives 4,604,495,808.  At the least positive stake the balance
    the code derives through the number of validators is 0, not the stake in
    Gwei, and the issuance is [NaN]. *)
Lemma C3_counterexample :
  (integer_value (max_balance_at_stake_of 5176118.422000515)
   = Some 5176118422000515%Z
   /\ (5176118422000515 + 1 = 71945246 * 71945246)%Z
   /\ Z.sqrt 5176118422000515 = 71945245%Z
   /\ Math_floor (Math_sqrt (max_balance_at_stake_of 5176118.422000515))
      = 71945246
   /\ spec_issuance_per_epoch 5176118422000515 = 4604495808%Z
   /\ max_issuance_per_epoch_of 5176118.422000515 = 4604495743
   /\ integer_value (max_issuance_per_epoch_of 5176118.422000515)
      <> Some (spec_issuance_per_epoch 5176118422000515)
   /\ getIssuance 5176118.422000515 = 378403.21577941877)
  /\ ((0 <? 5e-324) = true
      /\ (0 <? 5e-324 * GWEI_PER_ETH) = true
      /\ max_balance_at_stake_of 5e-324 = 0
      /\ getIssuance 5e-324 = NaN).
Proof.
  split.
  - repeat split; try (vm_compute; reflexivity). vm_compute. discriminate.
  - repeat split; vm_compute; reflexivity.
Qed.

Lemma C3_witness :
  (50 <= stakedSupplySteps)%nat
  /\ integer_value (stakedSupplySlider 50) = Some 10000000%Z
  /\ integer_value (max_balance_at_stake_of (stakedSupplySlider 50))
     = Some 10000000000000000%Z
  /\ integer_value (max_issuance_per_epoch_of (stakedSupplySlider 50))
     = Some 6400000000%Z.
Proof.
  assert (Hj : (50 <= stakedSupplySteps)%nat) by (unfold stakedSupplySteps; lia).
  split; [exact Hj |].
  destruct (proj2 (proj2 C3_issuance_formula) 50%nat Hj) as (Hs & Hb & _ & Hi).
  split; [exact Hs |]. split; [exact Hb | exact Hi].
Defined.



(** Claim C5 fails as stated: a stake of 9,999,999.99 ETH earns more than a
    stake of 10,000,000 ETH, the floor of the square root of the balance
    being one less. *)
Lemma C5_counterexample :
  (0 <? 9999999.99) = true
  /\ (9999999.99 <? 10000000) = true
  /\ (getIssuance 9999999.99 <? getIssuance 10000000) = false
  /\ (getIssuance 10000000 <? getIssuance 9999999.99) = true
  /\ getIssuance 10000000 = 525960
  /\ getIssuance 9999999.99 = 525960.00468433124.
Proof. repeat split; vm_compute; reflexivity. Qed.

Lemma C5_witness :
  (49 < 50)%nat
  /\ (50 <= stakedSupplySteps)%nat
  /\ (getIssuance (stakedSupplySlider 49) <? getIssuance (stakedSupplySlider 50)) = true.
Proof.
  assert (Hij : (49 < 50)%nat) by lia.
  assert (Hj : (50 <= stakedSupplySteps)%nat) by (unfold stakedSupplySteps; lia).
  split; [exact Hij |]. split; [exact Hj |].
  exact (proj2 (C5_issuance_increasing_on_slider 49 50 Hij Hj)).
Defined.

End ProjectionExamples.

(** ** The loading placeholder *)

Section LoadingFacts.
Import EquilibriumWidget.
Context {Date : Type} `{DateFns Date}.

Lemma equilibriums_undefined_iff
    (stakedSupply nonStakedSupplyBurnFraction : option number)
    (supplyProjectionInputs : option SupplyInputs)
    (historicSupplyByMonth : option (list Point)) :
  equilibriums stakedSupply nonStakedSupplyBurnFraction
               supplyProjectionInputs historicSupplyByMonth = Returned None
  <-> (stakedSupply = None \/ nonStakedSupplyBurnFraction = None
       \/ supplyProjectionInputs = None \/ historicSupplyByMonth = None).
Proof.
  unfold equilibriums.
  destruct stakedSupply as [staked |]; [| tauto].
  destruct nonStakedSupplyBurnFraction as [f |]; [| tauto].
  destruct supplyProjectionInputs as [inputs |]; [| tauto].
  destruct historicSupplyByMonth as [historic |]; [| tauto].
  split.
  - destruct (NEA_last historic); discriminate.
  - intros [Hn | [Hn | [Hn | Hn]]]; discriminate.
Qed.

Lemma historicSupplyByMonth_undefined_iff (inputs : option SupplyInputs) :
  historicSupplyByMonth inputs = None <-> inputs = None.
Proof. destruct inputs; simpl; split; congruence. Qed.

Lemma equilibriumsOf_undefined_iff (h : Hooks) (st : State) :
  equilibriumsOf h st = Returned None <-> h.(supplyProjectionInputs) = None.
Proof.
  unfold equilibriumsOf. rewrite equilibriums_undefined_iff.
  rewrite historicSupplyByMonth_undefined_iff.
  split; [intros [Hn | [Hn | [Hn | Hn]]]; congruence | tauto].
Qed.

End LoadingFacts.

Section LoadingExamples.
Import JsDate EquilibriumWidget Samples.
Open Scope float_scope.

(** Claim C8: where the code departs from it.  The guard of [equilibriums]
    tests the two state cells against [undefined], but the cells are created
    holding the number 0 and only ever hold numbers, so that the result is
    [undefined] only while the projection inputs are.  With the projection
    inputs loaded and the analysis snapshot still [undefined], the effect
    leaves the state at its initial values (stake 0, burn fraction 0) and the
    widget renders the graph, not the placeholder, over a series of 201
    points whose projected values are [NaN]; the amounts it shows are [NaN]
    as well. *)
Theorem C8_analysis_pending_renders_graph :
  (forall (h : Hooks) (st : State),
     equilibriumsOf h st = Returned None <-> h.(supplyProjectionInputs) = None)
  /\ analysisPendingHooks.(groupedAnalysis1) = None
  /\ initEffect analysisPendingHooks initialState = Returned initialState
  /\ exists (v : View) (series : list Point) (map : gmap Z number),
       render analysisPendingHooks initialState = Returned v
       /\ v.(graphSlot) = EquilibriumGraph series map (Some 0.7) (Some 0.7) 160
       /\ (forall heightClass, v.(graphSlot) <> LoadingText heightClass)
       /\ length series = 201%nat
       /\ series !! 1%nat = Some (1676419200%Z, NaN)
       /\ v.(supplyEquilibriumAmount) = Some NaN
       /\ v.(cashFlowsEquilibriumAmount) = Some NaN
       /\ v.(stakingIssuanceFraction) = Some NaN.
Proof.
  split; [intros h st; apply equilibriumsOf_undefined_iff |].
  split; [reflexivity |]. split; [reflexivity |].
  assert (Hhist : historicSupplyByMonth (Some exampleInputs)
                  = Some [(1644883200%Z, 110000000)])
    by (vm_compute; reflexivity).
  eexists. eexists. eexists. split.
  { unfold render, equilibriumsOf.
    cbn [analysisPendingHooks supplyProjectionInputs initialState stakedSupply
         nonStakedSupplyBurnFraction lg md].
    rewrite Hhist.
    rewrite (equilibriums_returns _ _ _ [(1644883200%Z, 110000000)]
               (1644883200%Z, 110000000) eq_refl).
    reflexivity. }
  cbn [graphSlot supplyEquilibriumSeries supplyEquilibriumMap
       supplyEquilibriumAmount cashFlowsEquilibriumAmount stakingIssuanceFraction
       supplyEquilibrium cashFlowsEquilibrium yearlyIssuanceFraction
       fmap option_fmap option_map].
  split; [reflexivity |]. split; [discriminate |].
  split; [apply loop_after_series_length |].
  split.
  { change 1%nat with (length [(1644883200%Z, 110000000%float)] + 0)%nat.
    rewrite loop_after_series_lookup by lia. vm_compute. reflexivity. }
  split; [| split]; vm_compute; reflexivity.
Qed.

End LoadingExamples.

(** ** The top bar *)

Section TopBarFacts.
Import TopBar.
Context {Node : Type} (contains : Node -> Node -> bool).
Implicit Types (refs : Refs (Node := Node)) (w : World) (target : Node).

(** The dialog after a click, in one formula: a click in the button
    toggles it; any other click leaves it open only if it was open and the
    click was in the dialog. *)
Lemma click_showAlarmDialog refs target w :
  (click contains refs (Some target) w).(state).(showAlarmDialog)
  = if refContains contains refs.(alarmButtonRef) target
    then negb w.(state).(showAlarmDialog)
    else w.(state).(showAlarmDialog)
         && refContains contains refs.(dialogRef) target.
Proof.
  unfold click, checkIfClickedOutside, handleClickAlarm.
  destruct (refContains contains (alarmButtonRef refs) target) eqn:Hb,
           (refContains contains (dialogRef refs) target) eqn:Hd,
           (showAlarmDialog (state w)) eqn:Hs;
    simpl; rewrite ?Hs; reflexivity.
Qed.

Lemma click_null_target refs w : click contains refs None w = w.
Proof.
  unfold click, checkIfClickedOutside.
  destruct (showAlarmDialog (state w)); reflexivity.
Qed.

(** Claim C7.  The dialog is closed or open, and closed at mount.  A click
    in the trigger button toggles it; a click outside the dialog closes an
    open dialog; a click in the open dialog, off the button, leaves it open;
    a click off the button leaves a closed dialog closed; and an event other
    than a click does not change it while the component stays mounted. *)
Theorem C7_alarm_dialog refs w :
  (forall storage, (mount storage).(state).(showAlarmDialog) = false)
  /\ (w.(state).(showAlarmDialog) = false \/ w.(state).(showAlarmDialog) = true)
  /\ (forall target,
        refContains contains refs.(alarmButtonRef) target = true ->
        (step contains refs (Click (Some target)) w).(state).(showAlarmDialog)
        = negb w.(state).(showAlarmDialog))
  /\ (forall target,
        w.(state).(showAlarmDialog) = true ->
        refContains contains refs.(dialogRef) target = false ->
        (step contains refs (Click (Some target)) w).(state).(showAlarmDialog)
        = false)
  /\ (forall target,
        w.(state).(showAlarmDialog) = true ->
        refContains contains refs.(dialogRef) target = true ->
        refContains contains refs.(alarmButtonRef) target = false ->
        (step contains refs (Click (Some target)) w).(state).(showAlarmDialog)
        = true)
  /\ (forall target,
        w.(state).(showAlarmDialog) = false ->
        refContains contains refs.(alarmButtonRef) target = false ->
        (step contains refs (Click (Some target)) w).(state).(showAlarmDialog)
        = false)
  /\ (forall (type : AlarmType) (name : string),
        (step contains refs (Toggle type) w).(state).(showAlarmDialog)
        = w.(state).(showAlarmDialog)
        /\ (step contains refs (Other name) w).(state).(showAlarmDialog)
           = w.(state).(showAlarmDialog)
        /\ step contains refs (Click None) w = w).
Proof.
  split; [reflexivity |].
  split; [destruct (showAlarmDialog (state w)); auto |].
  split; [| split; [| split; [| split]]].
  - intros target Hb. simpl step. rewrite click_showAlarmDialog, Hb. reflexivity.
  - intros target Hs Hd. simpl step. rewrite click_showAlarmDialog, Hs, Hd.
    destruct (refContains contains (alarmButtonRef refs) target); reflexivity.
  - intros target Hs Hd Hb. simpl step.
    rewrite click_showAlarmDialog, Hs, Hd, Hb. reflexivity.
  - intros target Hs Hb. simpl step.
    rewrite click_showAlarmDialog, Hs, Hb. reflexivity.
  - intros type name. split; [destruct type; reflexivity |].
    split; [reflexivity | apply click_null_target].
Qed.

Lemma mount_coherent (storage : gmap string bool) : coherent (mount storage).
Proof. split; reflexivity. Qed.

Lemma step_coherent refs (e : Event) w :
  coherent w -> coherent (step contains refs e w).
Proof.
  intros [Hgas Heth]. destruct e as [e_target | type | | name].
  - assert (Hst : forall w', (click contains refs e_target w').(storage) = w'.(storage)
                  /\ (click contains refs e_target w').(state).(gasAlarmActive)
                     = w'.(state).(gasAlarmActive)
                  /\ (click contains refs e_target w').(state).(ethAlarmActive)
                     = w'.(state).(ethAlarmActive)).
    { intros w'. unfold click.
      destruct (checkIfClickedOutside contains refs _ e_target);
        destruct e_target as [target |];
        try destruct (refContains contains (alarmButtonRef refs) target);
        repeat split. }
    destruct (Hst w) as (Hs & Hg & He). unfold coherent. simpl step.
    rewrite Hs, Hg, He. split; assumption.
  - destruct type; unfold coherent; simpl;
      unfold useLocalStorage_read, useLocalStorage_write.
    + rewrite lookup_insert_eq, lookup_insert_ne by discriminate.
      split; [reflexivity | exact Heth].
    + rewrite lookup_insert_eq, lookup_insert_ne by discriminate.
      split; [exact Hgas | reflexivity].
  - apply mount_coherent.
  - split; assumption.
Qed.

Lemma run_coherent refs (events : list Event) w :
  coherent w -> coherent (run contains refs events w).
Proof.
  revert w. induction events as [| e events IH]; intros w Hw; [exact Hw |].
  apply IH. apply step_coherent. exact Hw.
Qed.

(** Claim C9.  Each preference is read at mount from its own key, [false]
    standing in for a missing value, and a setter stores the value it is given
    under that key without touching the other key.  Hence after any sequence of
    events from a mount (toggles, clicks, reloads), mounting again on the
    storage that is left gives both preferences the values they had. *)
Theorem C9_alarm_storage_round_trip refs (events : list Event)
    (storage0 : gmap string bool) :
  let w := run contains refs events (mount storage0) in
  ((mount w.(storage)).(state).(gasAlarmActive) = w.(state).(gasAlarmActive)
   /\ (mount w.(storage)).(state).(ethAlarmActive) = w.(state).(ethAlarmActive))
  /\ ((mount ∅).(state).(gasAlarmActive) = false
      /\ (mount ∅).(state).(ethAlarmActive) = false)
  /\ (forall (value : bool) (w' : World),
        (mount (setGasAlarmActive value w').(storage)).(state).(gasAlarmActive) = value
        /\ (mount (setGasAlarmActive value w').(storage)).(state).(ethAlarmActive)
           = (mount w'.(storage)).(state).(ethAlarmActive)
        /\ (mount (setEthAlarmActive value w').(storage)).(state).(ethAlarmActive) = value
        /\ (mount (setEthAlarmActive value w').(storage)).(state).(gasAlarmActive)
           = (mount w'.(storage)).(state).(gasAlarmActive))
  /\ (forall (type : AlarmType) (w' : World),
        (toggleAlarm type w').(storage)
        !! (match type with
            | gas => "gas-alarm-enabled"
            | eth => "eth-alarm-enabled"
            end)
        = Some (negb (match type with
                      | gas => w'.(state).(gasAlarmActive)
                      | eth => w'.(state).(ethAlarmActive)
                      end))).
Proof.
  intros w. split; [| split; [| split]].
  - destruct (run_coherent refs events (mount storage0) (mount_coherent storage0))
      as [Hgas Heth].
    fold w in Hgas, Heth. split; symmetry; assumption.
  - split; reflexivity.
  - intros value w'. simpl. unfold useLocalStorage_read, useLocalStorage_write.
    rewrite !lookup_insert_eq, !lookup_insert_ne by discriminate.
    repeat split.
  - intros type w'. destruct type; simpl; unfold useLocalStorage_write;
      apply lookup_insert_eq.
Qed.

End TopBarFacts.

Section TopBarExamples.
Import TopBar.

Lemma C7_witness :
  (step Element_contains mountedRefs (Click (Some BellImage)) (mount ∅))
    .(state).(showAlarmDialog)
  = negb (mount ∅).(state).(showAlarmDialog).
Proof.
  apply (proj1 (proj2 (proj2
           (C7_alarm_dialog Element_contains mountedRefs (mount ∅))))).
  reflexivity.
Defined.

End TopBarExamples.

(** ** The part of the host in the projection *)

Section HostFacts.
Import EquilibriumWidget.
Context {Date : Type} (host1 host2 : DateFns Date).
Implicit Types (staked f : number) (historic : list Point) (seed : Point).

(** The two hosts give every timestamp the same month, and move every
    timestamp to the same timestamp a year later. *)
Hypothesis same_month : forall t : Z,
  @getMonth Date host1 (@fromUnixTime Date host1 t)
  = @getMonth Date host2 (@fromUnixTime Date host2 t).
Hypothesis same_year : forall t : Z,
  @getUnixTime Date host1 (@addYears Date host1 (@fromUnixTime Date host1 t) 1)
  = @getUnixTime Date host2 (@addYears Date host2 (@fromUnixTime Date host2 t) 1).

Lemma historicSupplyByMonth_hosts (inputs : option SupplyInputs) :
  @historicSupplyByMonth Date host1 inputs = @historicSupplyByMonth Date host2 inputs.
Proof.
  destruct inputs as [inputs |]; [| reflexivity].
  unfold historicSupplyByMonth. f_equal.
  generalize (@nil Point) as acc.
  induction (supplyByDay inputs) as [| point days IH]; intros acc; [reflexivity |].
  cbn [fold_left]. rewrite <- IH. f_equal.
  destruct (last acc) as [l |]; [| reflexivity].
  rewrite !same_month. reflexivity.
Qed.

Lemma loop_after_hosts k staked f historic seed :
  @loop_after Date host1 k staked f historic seed
  = @loop_after Date host2 k staked f historic seed.
Proof.
  induction k as [| k IH]; [reflexivity |].
  rewrite !loop_after_succ, IH. unfold loop_body. rewrite same_year. reflexivity.
Qed.

Lemma equilibriums_hosts (stakedSupply nonStakedSupplyBurnFraction : option number)
    (inputs : option SupplyInputs) (historic : option (list Point)) :
  @equilibriums Date host1 stakedSupply nonStakedSupplyBurnFraction inputs historic
  = @equilibriums Date host2 stakedSupply nonStakedSupplyBurnFraction inputs historic.
Proof.
  destruct stakedSupply as [staked |]; [| reflexivity].
  destruct nonStakedSupplyBurnFraction as [f |]; [| reflexivity].
  destruct inputs as [inputs |]; [| reflexivity].
  destruct historic as [historic |]; [| reflexivity].
  destruct (NEA_last historic) as [seed |] eqn:Hlast.
  - rewrite !(equilibriums_returns _ _ _ _ _ Hlast), loop_after_hosts. reflexivity.
  - unfold equilibriums. rewrite Hlast. reflexivity.
Qed.

Lemma equilibriumsOf_hosts (h : Hooks) (st : State) :
  @equilibriumsOf Date host1 h st = @equilibriumsOf Date host2 h st.
Proof.
  unfold equilibriumsOf.
  rewrite historicSupplyByMonth_hosts. apply equilibriums_hosts.
Qed.

End HostFacts.

(** ** The projection on the store *)

Section StoreFacts.
Import EquilibriumWidget.
Context {Date : Type} {host : DateFns Date}.
Implicit Types (staked f : number) (historic : list Point) (seed : Point)
  (σ : gmap nat (list Point)).

(** The loop on the store keeps, in the array it pushes to, the series of
    the loop on values, and touches no other array. *)
Lemma store_loop_after (l : nat) k staked f historic seed σ :
  for_loop k (store_loop_body l staked (getIssuance staked) f)
    {| st_supply := seed;
       st_nonStaked := (seed.2 - staked)%float;
       st_store := <[l := historic]> σ |}
  = {| st_supply := (loop_after k staked f historic seed).(supply);
       st_nonStaked := (loop_after k staked f historic seed).(nonStaked);
       st_store := <[l := (loop_after k staked f historic seed).(series)]> σ |}.
Proof.
  induction k as [| k IH]; [reflexivity |].
  rewrite for_loop_succ, IH, loop_after_succ.
  unfold store_loop_body, loop_body, push.
  cbn [st_supply st_nonStaked st_store supply nonStaked series].
  rewrite lookup_insert_eq, insert_insert_eq. reflexivity.
Qed.

(** On a store whose array [a] holds [historic], the callback returns what
    the callback on values returns, in a new array; the store is extended by
    that array and is otherwise as before. *)
Lemma store_equilibriums_refines staked f (inputs : SupplyInputs) (a : nat)
    historic σ :
  σ !! a = Some historic ->
  store_equilibriums (Some staked) (Some f) (Some inputs) (Some a) σ
  = match equilibriums (Some staked) (Some f) (Some inputs) (Some historic) with
    | Returned (Some e) =>
        Returned (Some (fresh (dom σ), e),
                  <[fresh (dom σ) := e.(supplyEquilibriumSeries)]> σ)
    | Returned None => Returned (None, σ)
    | TypeError => TypeError
    end.
Proof.
  intros Ha. unfold store_equilibriums, spread. rewrite Ha.
  change (mbind ?g (Returned ?x)) with (g x). cbv beta iota.
  rewrite lookup_insert_eq. change (default [] (Some historic)) with historic.
  destruct (NEA_last historic) as [seed |] eqn:Hlast.
  - rewrite (equilibriums_returns _ _ _ _ _ Hlast).
    cbv zeta. rewrite store_loop_after.
    cbn [st_supply st_nonStaked st_store supplyEquilibriumSeries].
    rewrite lookup_insert_eq. reflexivity.
  - unfold equilibriums. rewrite Hlast. reflexivity.
Qed.

(** Claim C6, as amended.  On a given host the result of [equilibriums]
    does not depend on the state of the component beyond the stake, the burn
    fraction and the projection inputs.  Evaluated on a store of arrays, the
    callback returns the same record as the function on values, leaves every
    array that existed before as it was (in particular the memoised history
    it copies), and a second evaluation on the store the first one left
    returns the same record.  Of the host, the result depends on the month
    its date library gives a timestamp and on the timestamp it gives a year
    later, and on nothing else: two hosts that agree on these give the same
    result. *)
Theorem C6_pure_function :
  (forall (h1 h2 : Hooks) (st1 st2 : State),
     st1.(stakedSupply) = st2.(stakedSupply) ->
     st1.(nonStakedSupplyBurnFraction) = st2.(nonStakedSupplyBurnFraction) ->
     h1.(supplyProjectionInputs) = h2.(supplyProjectionInputs) ->
     equilibriumsOf h1 st1 = equilibriumsOf h2 st2)
  /\ (forall staked f (inputs : SupplyInputs) (a : nat) historic σ r σ',
        σ !! a = Some historic ->
        store_equilibriums (Some staked) (Some f) (Some inputs) (Some a) σ
        = Returned (r, σ') ->
        (exists (l : nat) (e : Equilibriums),
           r = Some (l, e)
           /\ equilibriums (Some staked) (Some f) (Some inputs) (Some historic)
              = Returned (Some e)
           /\ σ !! l = None
           /\ σ' !! l = Some e.(supplyEquilibriumSeries))
        /\ (forall l' : nat, is_Some (σ !! l') -> σ' !! l' = σ !! l')
        /\ (exists (l2 : nat) (σ'' : gmap nat (list Point)),
              store_equilibriums (Some staked) (Some f) (Some inputs) (Some a) σ'
              = Returned ((fun p : nat * Equilibriums => (l2, p.2)) <$> r, σ'')))
  /\ (forall host2 : DateFns Date,
        (forall t : Z,
           @getMonth Date host (@fromUnixTime Date host t)
           = @getMonth Date host2 (@fromUnixTime Date host2 t)) ->
        (forall t : Z,
           @getUnixTime Date host (@addYears Date host (@fromUnixTime Date host t) 1)
           = @getUnixTime Date host2
               (@addYears Date host2 (@fromUnixTime Date host2 t) 1)) ->
        forall (h : Hooks) (st : State),
          @equilibriumsOf Date host h st = @equilibriumsOf Date host2 h st).
Proof.
  split; [| split].
  - intros h1 h2 st1 st2 Hs Hf Hi. unfold equilibriumsOf.
    rewrite Hs, Hf, Hi. reflexivity.
  - intros staked f inputs a historic σ r σ' Ha Hrun.
    rewrite (store_equilibriums_refines _ _ _ _ _ _ Ha) in Hrun.
    destruct (equilibriums (Some staked) (Some f) (Some inputs) (Some historic))
      as [[e |] |] eqn:He; [| | discriminate].
    + injection Hrun as <- <-.
      assert (Hfresh : σ !! fresh (dom σ) = None).
      { apply not_elem_of_dom. apply is_fresh. }
      split; [| split].
      * exists (fresh (dom σ)), e. split; [reflexivity |]. split; [reflexivity |].
        split; [exact Hfresh | apply lookup_insert_eq].
      * intros l' [x Hx]. apply lookup_insert_ne. congruence.
      * assert (Ha' : <[fresh (dom σ) := supplyEquilibriumSeries e]> σ !! a
                      = Some historic).
        { rewrite lookup_insert_ne by congruence. exact Ha. }
        eexists. eexists.
        rewrite (store_equilibriums_refines _ _ _ _ _ _ Ha'), He. reflexivity.
    + apply (proj1 (equilibriums_undefined_iff _ _ _ _)) in He.
      destruct He as [Hn | [Hn | [Hn | Hn]]]; discriminate.
  - intros host2 Hmonth Hyear h st.
    apply (equilibriumsOf_hosts host host2 Hmonth Hyear).
Qed.

End StoreFacts.
Section StoreExamples.
Import JsDate EquilibriumWidget Samples.
Open Scope float_scope.

(** Claim C6 fails as stated: the result depends on the time zone of the
    host, which is none of the three inputs.  For a supply series whose last
    day is 2022-02-01 at 02:00 UTC, a host in UTC takes that day as the first
    of a new month and projects from it, over a series of 202 points; a host
    five hours west of UTC finds it in January still, drops it, and projects
    from 2022-01-15, over a series of 201 points and to another equilibrium. *)
Lemma C6_counterexample :
  getMonth (DateFns := dateFns) (fromUnixTime (DateFns := dateFns) 1643680800) = 1%Z
  /\ getMonth (DateFns := dateFnsAt utcMinus5)
              (fromUnixTime (DateFns := dateFnsAt utcMinus5) 1643680800) = 0%Z
  /\ exists e1 e2 : Equilibriums,
       equilibriumsOf (H := dateFns) (loadedHooks monthEdgeInputs) exampleState
       = Returned (Some e1)
       /\ equilibriumsOf (H := dateFnsAt utcMinus5)
                         (loadedHooks monthEdgeInputs) exampleState
          = Returned (Some e2)
       /\ length e1.(supplyEquilibriumSeries) = 202%nat
       /\ length e2.(supplyEquilibriumSeries) = 201%nat
       /\ e1.(supplyEquilibriumSeries) !! 1%nat = Some (1643680800%Z, 110000000)
       /\ e2.(supplyEquilibriumSeries) !! 1%nat = Some (1673784000%Z, 108535960)
       /\ (e1.(supplyEquilibrium) =? e2.(supplyEquilibrium)) = false.
Proof.
  split; [vm_compute; reflexivity |]. split; [vm_compute; reflexivity |].
  assert (Hhist1 : historicSupplyByMonth (H := dateFns) (Some monthEdgeInputs)
                   = Some [(1642248000%Z, 109000000); (1643680800%Z, 110000000)])
    by (vm_compute; reflexivity).
  assert (Hhist2 : historicSupplyByMonth (H := dateFnsAt utcMinus5)
                     (Some monthEdgeInputs)
                   = Some [(1642248000%Z, 109000000)])
    by (vm_compute; reflexivity).
  eexists. eexists. split; [| split].
  { unfold equilibriumsOf. cbn [loadedHooks supplyProjectionInputs].
    rewrite Hhist1. apply equilibriums_returns. reflexivity. }
  { unfold equilibriumsOf. cbn [loadedHooks supplyProjectionInputs].
    rewrite Hhist2. apply equilibriums_returns. reflexivity. }
  cbn [supplyEquilibriumSeries supplyEquilibrium].
  rewrite !loop_after_series_length.
  split; [reflexivity |]. split; [reflexivity |].
  split; [rewrite loop_after_series; reflexivity |].
  split.
  { change 1%nat with (length [(1642248000%Z, 109000000%float)] + 0)%nat.
    rewrite loop_after_series_lookup by lia. vm_compute. reflexivity. }
  vm_compute. reflexivity.
Qed.

(** On a store that holds the memoised history in its array 0, on a host in
    UTC. *)
Lemma C6_witness :
  exists (r : option (nat * Equilibriums)) (σ' : gmap nat (list Point)),
    store_equilibriums (Some 10000000) (Some 0.01) (Some exampleInputs) (Some 0%nat)
                       {[ 0%nat := [(1644883200%Z, 110000000)] ]}
    = Returned (r, σ')
    /\ σ' !! 0%nat = Some [(1644883200%Z, 110000000)]
    /\ exists (l2 : nat) (σ'' : gmap nat (list Point)),
         store_equilibriums (Some 10000000) (Some 0.01) (Some exampleInputs)
                            (Some 0%nat) σ'
         = Returned ((fun p : nat * Equilibriums => (l2, p.2)) <$> r, σ'').
Proof.
  assert (Ha : ({[ 0%nat := [(1644883200%Z, 110000000)] ]} : gmap nat (list Point))
               !! 0%nat = Some [(1644883200%Z, 110000000)]) by reflexivity.
  pose proof (store_equilibriums_refines (Date := JsDate.Date)
                10000000 0.01 exampleInputs 0%nat _ _ Ha) as Hrun.
  rewrite (equilibriums_returns (Date := JsDate.Date) 10000000 0.01 exampleInputs
             [(1644883200%Z, 110000000)] (1644883200%Z, 110000000) eq_refl) in Hrun.
  destruct (proj1 (proj2 (C6_pure_function (Date := JsDate.Date)))
              10000000 0.01 exampleInputs 0%nat _ _ _ _ Ha Hrun)
    as (_ & Hkeep & Hagain).
  eexists. eexists. split; [exact Hrun |].
  split; [| exact Hagain].
  exact (eq_trans (Hkeep 0%nat (ex_intro _ _ Ha)) Ha).
Defined.

End StoreExamples.

(** ** The projection from the initial state *)

Section ProjectionMore.
Import EquilibriumWidget.
Open Scope float_scope.
Context {Date : Type} `{DateFns Date}.
Implicit Types (staked f : number) (historic : list Point) (seed : Point).

Lemma loop_after_NaN k staked f historic seed :
  getIssuance staked = NaN ->
  (loop_after (S k) staked f historic seed).(supply).2 = NaN
  /\ (loop_after (S k) staked f historic seed).(nonStaked) = NaN.
Proof.
  intros HI. rewrite loop_after_succ. unfold loop_body.
  cbn [supply nonStaked fst snd]. rewrite HI, add_NaN_r, !sub_NaN_l.
  split; reflexivity.
Qed.

(** When the issuance is [NaN], as it is for the stake 0 of the initial
    state, the callback still returns a record, and every projected value in
    it is [NaN]: the 200 points pushed on the series, both equilibrium
    values, the cash flows and the issuance fraction. *)
Theorem projection_of_NaN_issuance staked f (inputs : SupplyInputs) historic seed :
  NEA_last historic = Some seed ->
  getIssuance staked = NaN ->
  exists e : Equilibriums,
    equilibriums (Some staked) (Some f) (Some inputs) (Some historic)
    = Returned (Some e)
    /\ e.(supplyEquilibrium) = NaN
    /\ e.(nonStakedSupplyEquilibrium) = NaN
    /\ e.(cashFlowsEquilibrium) = NaN
    /\ e.(yearlyIssuanceFraction) = NaN
    /\ forall i : nat, (i < 200)%nat ->
         exists t' : Z,
           e.(supplyEquilibriumSeries) !! (length historic + i)%nat = Some (t', NaN).
Proof.
  intros Hlast HI. eexists.
  split; [apply (equilibriums_returns _ _ _ _ _ Hlast) |].
  cbn [supplyEquilibrium nonStakedSupplyEquilibrium cashFlowsEquilibrium
       yearlyIssuanceFraction supplyEquilibriumSeries].
  destruct (loop_after_NaN 199 staked f historic seed HI) as [Hsupply Hnon].
  split; [exact Hsupply |]. split; [exact Hnon |].
  split; [exact HI |].
  split; [rewrite HI; apply div_NaN_l |].
  intros i Hi. rewrite loop_after_series_lookup by exact Hi.
  destruct (loop_after_NaN i staked f historic seed HI) as [Hs _].
  destruct (supply (loop_after (S i) staked f historic seed)) as [t' x].
  simpl in Hs. subst x. exists t'. reflexivity.
Qed.

End ProjectionMore.

(** ** The map of the series *)

Section MapFacts.
Import EquilibriumWidget.
Context {Date : Type} `{DateFns Date}.
Implicit Types (staked f : number) (historic : list Point) (seed : Point).

Lemma map_of_series_snoc (l : list Point) (p : Point) :
  fold_left (fun (map : gmap Z number) '(t, v) => <[t := v]> map) (l ++ [p]) ∅
  = <[p.1 := p.2]>
      (fold_left (fun (map : gmap Z number) '(t, v) => <[t := v]> map) l ∅).
Proof. rewrite fold_left_app. destruct p. reflexivity. Qed.

(** In the map a timestamp has the value of the last point that carries it. *)
Lemma map_of_series_lookup (l : list Point) (t0 : Z) :
  fold_left (fun (map : gmap Z number) '(t, v) => <[t := v]> map) l ∅ !! t0
  = snd <$> last (filter (fun p : Point => p.1 = t0) l).
Proof.
  induction l as [| p l IH] using rev_ind; [reflexivity |].
  rewrite map_of_series_snoc, filter_app.
  destruct (decide (p.1 = t0)) as [Heq | Hne].
  - rewrite filter_cons_True by exact Heq. rewrite filter_nil, last_snoc.
    rewrite <- Heq. apply lookup_insert_eq.
  - rewrite filter_cons_False by exact Hne. rewrite filter_nil, app_nil_r.
    rewrite lookup_insert_ne by exact Hne. exact IH.
Qed.

Lemma loop_after_timestamps_increase `{!DateFnsForward Date}
    (j k : nat) staked f historic seed :
  (j < k)%nat ->
  ((loop_after j staked f historic seed).(supply).1
   < (loop_after k staked f historic seed).(supply).1)%Z.
Proof.
  induction k as [| k IH]; [lia |]. intros Hjk.
  assert (Hstep : ((loop_after k staked f historic seed).(supply).1
                   < (loop_after (S k) staked f historic seed).(supply).1)%Z).
  { rewrite loop_after_timestamp. apply addYears_later. }
  destruct (decide (j = k)) as [-> | Hne]; [exact Hstep |].
  specialize (IH ltac:(lia)). lia.
Qed.

Lemma map_of_loop_lookup `{!DateFnsForward Date}
    (j k : nat) staked f historic seed :
  NEA_last historic = Some seed ->
  (j <= k)%nat ->
  fold_left (fun (map : gmap Z number) '(t, v) => <[t := v]> map)
            (loop_after k staked f historic seed).(series) ∅
  !! (loop_after j staked f historic seed).(supply).1
  = Some (loop_after j staked f historic seed).(supply).2.
Proof.
  intros Hlast. induction k as [| k IH]; intros Hjk.
  - assert (j = 0)%nat as -> by lia.
    change (series (loop_after 0 staked f historic seed)) with historic.
    change (supply (loop_after 0 staked f historic seed)) with seed.
    unfold NEA_last in Hlast.
    destruct historic as [| p l _] using rev_ind; [discriminate |].
    rewrite last_snoc in Hlast. injection Hlast as ->.
    rewrite map_of_series_snoc. apply lookup_insert_eq.
  - rewrite loop_after_succ. unfold loop_body at 1. cbn [series].
    rewrite map_of_series_snoc. cbn [fst snd].
    destruct (decide (j = S k)) as [-> | Hne].
    + rewrite loop_after_succ. unfold loop_body. cbn [supply fst snd].
      apply lookup_insert_eq.
    + rewrite lookup_insert_ne; [apply IH; lia |].
      pose proof (loop_after_timestamps_increase j (S k) staked f historic seed
                    ltac:(lia)) as Hlt.
      rewrite loop_after_succ in Hlt. unfold loop_body in Hlt at 1.
      cbn [supply fst] in Hlt. lia.
Qed.

(** [supplyEquilibriumMap] sends a timestamp to the value of the last point
    of the series that carries it, and is [undefined] on any other number.
    When adding a year moves a date forward, the seed and the 200 projected
    points are all read back from the map. *)
Theorem supplyEquilibriumMap_lookup `{!DateFnsForward Date}
    staked f (inputs : SupplyInputs) historic seed :
  NEA_last historic = Some seed ->
  exists e : Equilibriums,
    equilibriums (Some staked) (Some f) (Some inputs) (Some historic)
    = Returned (Some e)
    /\ (forall t0 : Z,
          e.(supplyEquilibriumMap) !! t0
          = snd <$> last (filter (fun p : Point => p.1 = t0)
                                 e.(supplyEquilibriumSeries)))
    /\ (forall (i : nat) (p : Point),
          (length historic - 1 <= i)%nat ->
          e.(supplyEquilibriumSeries) !! i = Some p ->
          e.(supplyEquilibriumMap) !! p.1 = Some p.2).
Proof.
  intros Hlast. eexists.
  split; [apply (equilibriums_returns _ _ _ _ _ Hlast) |].
  cbn [supplyEquilibriumMap supplyEquilibriumSeries].
  split; [intros t0; apply map_of_series_lookup |].
  intros i p Hi Hp.
  assert (Hlen : (1 <= length historic)%nat).
  { unfold NEA_last in Hlast. destruct historic; [discriminate | simpl; lia]. }
  pose proof (lookup_lt_Some _ _ _ Hp) as Hlt.
  rewrite loop_after_series_length in Hlt.
  destruct (decide (i = length historic - 1)%nat) as [-> | Hne].
  - rewrite (loop_after_series_seed _ _ _ _ _ Hlast) in Hp. injection Hp as <-.
    exact (map_of_loop_lookup 0 200 staked f historic seed Hlast ltac:(lia)).
  - replace i with (length historic + (i - length historic))%nat in Hp by lia.
    rewrite loop_after_series_lookup in Hp by lia. injection Hp as <-.
    exact (map_of_loop_lookup (S (i - length historic)) 200 staked f historic seed
             Hlast ltac:(lia)).
Qed.

Lemma StronglySorted_sublist {A : Type} (R : relation A) (l1 l2 : list A) :
  sublist l1 l2 -> StronglySorted R l2 -> StronglySorted R l1.
Proof.
  induction 1 as [| x l1 l2 Hsub IH | x l1 l2 Hsub IH]; intros Hs.
  - constructor.
  - apply StronglySorted_cons in Hs as [Hall Hs].
    apply StronglySorted_cons. split; [| apply IH; exact Hs].
    apply Forall_forall. intros y Hy. rewrite Forall_forall in Hall.
    apply Hall. eapply sublist_subseteq; eassumption.
  - apply StronglySorted_cons in Hs as [_ Hs]. apply IH. exact Hs.
Qed.

Lemma StronglySorted_toPoint (days : list DataPoint) :
  StronglySorted (fun a b : DataPoint => (a.(t) < b.(t))%Z) days ->
  StronglySorted (fun p q : Point => (p.1 < q.1)%Z) (toPoint <$> days).
Proof.
  induction 1 as [| a days Hs IH Hall]; [constructor |].
  cbn [fmap list_fmap]. apply StronglySorted_cons. split; [| exact IH].
  apply Forall_fmap. exact Hall.
Qed.

Lemma StronglySorted_map_seq {A : Type} (R : relation A) (g : nat -> A) (a n : nat) :
  (forall i j : nat, (i < j)%nat -> R (g i) (g j)) ->
  StronglySorted R (map g (seq a n)).
Proof.
  intros Hg. revert a. induction n as [| n IH]; intros a; [constructor |].
  cbn [seq map]. apply StronglySorted_cons. split; [| apply IH].
  apply Forall_forall. intros y Hy.
  apply list_elem_of_In, in_map_iff in Hy as (j & <- & Hj).
  apply in_seq in Hj. apply Hg. lia.
Qed.

Lemma map_of_sorted_series (l : list Point) (p : Point) :
  StronglySorted (fun p q : Point => (p.1 < q.1)%Z) l ->
  p ∈ l ->
  fold_left (fun (map : gmap Z number) '(t, v) => <[t := v]> map) l ∅ !! p.1
  = Some p.2.
Proof.
  induction l as [| x l IH] using rev_ind; intros Hs Hp; [inversion Hp |].
  apply StronglySorted_app in Hs as (Hcross & Hl & _).
  rewrite map_of_series_snoc.
  apply elem_of_app in Hp as [Hp | Hp].
  - rewrite lookup_insert_ne; [apply IH; assumption |].
    specialize (Hcross p x Hp ltac:(apply list_elem_of_singleton; reflexivity)).
    lia.
  - apply list_elem_of_singleton in Hp as ->. apply lookup_insert_eq.
Qed.

(** When the days of a non-empty supply series come with strictly
    increasing timestamps and adding a year moves a date forward, the
    timestamps of the whole series, history and projection, are strictly
    increasing, and every point of the series is read back from the map
    under its timestamp. *)
Theorem series_timestamps_sorted `{!DateFnsForward Date}
    staked f (inputs : SupplyInputs) :
  inputs.(supplyByDay) <> [] ->
  StronglySorted (fun a b : DataPoint => (a.(t) < b.(t))%Z) inputs.(supplyByDay) ->
  exists (historic : list Point) (e : Equilibriums),
    historicSupplyByMonth (Some inputs) = Some historic
    /\ equilibriums (Some staked) (Some f) (Some inputs) (Some historic)
       = Returned (Some e)
    /\ StronglySorted (fun p q : Point => (p.1 < q.1)%Z) e.(supplyEquilibriumSeries)
    /\ forall p : Point,
         p ∈ e.(supplyEquilibriumSeries) ->
         e.(supplyEquilibriumMap) !! p.1 = Some p.2.
Proof.
  intros Hne Hsorted.
  destruct (historicSupplyByMonth_nonempty inputs Hne)
    as (historic & seed & Hh & Hlast & _).
  exists historic. eexists. split; [exact Hh |].
  split; [apply (equilibriums_returns _ _ _ _ _ Hlast) |].
  cbn [supplyEquilibriumSeries supplyEquilibriumMap].
  assert (Hhs : StronglySorted (fun p q : Point => (p.1 < q.1)%Z) historic).
  { destruct inputs as [b days].
    destruct (history_invariants b days historic Hh) as (Hsub & _).
    eapply StronglySorted_sublist; [exact Hsub |].
    apply StronglySorted_toPoint. exact Hsorted. }
  assert (Hall : StronglySorted (fun p q : Point => (p.1 < q.1)%Z)
                   (loop_after 200 staked f historic seed).(series)).
  { rewrite loop_after_series. apply StronglySorted_app.
    split; [| split; [exact Hhs |]].
    - intros x1 x2 Hx1 Hx2.
      apply list_elem_of_In, in_map_iff in Hx2 as (i & <- & _).
      pose proof (loop_after_timestamps_increase 0 (S i) staked f historic seed
                    ltac:(lia)) as Hlt.
      change (supply (loop_after 0 staked f historic seed)) with seed in Hlt.
      unfold NEA_last in Hlast.
      destruct historic as [| y l _] using rev_ind; [discriminate |].
      rewrite last_snoc in Hlast. injection Hlast as ->.
      apply elem_of_app in Hx1 as [Hx1 | Hx1].
      + apply StronglySorted_app in Hhs as (Hcross & _ & _).
        specialize (Hcross x1 seed Hx1
                      ltac:(apply list_elem_of_singleton; reflexivity)).
        lia.
      + apply list_elem_of_singleton in Hx1 as ->. exact Hlt.
    - apply StronglySorted_map_seq. intros i j Hij.
      apply loop_after_timestamps_increase. lia. }
  split; [exact Hall |].
  intros p Hp. apply map_of_sorted_series; assumption.
Qed.
End MapFacts.

(** ** Failures *)

Section OutcomeFacts.
Import EquilibriumWidget.
Context {Date : Type} `{DateFns Date}.

Lemma equilibriumsOf_cases (h : Hooks) (st : State) :
  match h.(supplyProjectionInputs) with
  | None => equilibriumsOf h st = Returned None
  | Some inputs =>
      match inputs.(supplyByDay) with
      | [] => equilibriumsOf h st = TypeError
      | _ :: _ => exists e : Equilibriums, equilibriumsOf h st = Returned (Some e)
      end
  end.
Proof.
  unfold equilibriumsOf.
  destruct (supplyProjectionInputs h) as [inputs |]; [| reflexivity].
  destruct (supplyByDay inputs) as [| day days] eqn:Hdays.
  - unfold historicSupplyByMonth. rewrite Hdays. reflexivity.
  - destruct (historicSupplyByMonth_nonempty inputs) as (historic & seed & Hh & Hlast & _);
      [rewrite Hdays; discriminate |].
    rewrite Hh. eexists. apply equilibriums_returns. exact Hlast.
Qed.

(** The memo, and with it the rendering of the widget, raises a [TypeError]
    exactly when the projection inputs are there with an empty supply series
    (which their static type excludes), and returns a record exactly when
    they are there with a non-empty one. *)
Theorem equilibriumsOf_outcome (h : Hooks) (st : State) :
  (equilibriumsOf h st = TypeError
   <-> exists inputs : SupplyInputs,
         h.(supplyProjectionInputs) = Some inputs /\ inputs.(supplyByDay) = [])
  /\ (render h st = TypeError <-> equilibriumsOf h st = TypeError)
  /\ ((exists e : Equilibriums, equilibriumsOf h st = Returned (Some e))
      <-> exists inputs : SupplyInputs,
            h.(supplyProjectionInputs) = Some inputs /\ inputs.(supplyByDay) <> []).
Proof.
  pose proof (equilibriumsOf_cases h st) as Hcases.
  split; [| split].
  - destruct (supplyProjectionInputs h) as [inputs |].
    + destruct (supplyByDay inputs) as [| day days] eqn:Hdays.
      * split; [intros _; exists inputs; split; [reflexivity | exact Hdays] | intros _; exact Hcases].
      * destruct Hcases as [e He]. rewrite He.
        split; [discriminate | intros (i & [= <-] & Hnil); congruence].
    + rewrite Hcases. split; [discriminate | intros (i & Hi & _); discriminate].
  - unfold render. destruct (equilibriumsOf h st) as [e |]; simpl.
    + split; discriminate.
    + split; reflexivity.
  - destruct (supplyProjectionInputs h) as [inputs |].
    + destruct (supplyByDay inputs) as [| day days] eqn:Hdays.
      * rewrite Hcases. split; [intros [e He]; discriminate |].
        intros (i & [= <-] & Hne). congruence.
      * split; [intros _; exists inputs; split; [reflexivity | rewrite Hdays; discriminate] |].
        intros _. exact Hcases.
    + rewrite Hcases. split; [intros [e He]; discriminate |].
      intros (i & Hi & _). discriminate.
Qed.

End OutcomeFacts.

(** ** The effect that sets the sliders *)

Section EffectFacts.
Import EquilibriumWidget.
Open Scope float_scope.

(** The effect sets the sliders at most once.  It leaves the state as it is
    when the flag is set or when the analysis or the projection inputs are
    still [undefined]; when it changes the state it sets the flag; and once
    the flag is set, no later run changes the state, whatever the data then
    are and wherever the sliders were moved. *)
Theorem initEffect_once (h h' : Hooks) (st st' : State) :
  initEffect h st = Returned st' ->
  (st.(initialEquilibriumInputsSet) = true -> st' = st)
  /\ (h.(groupedAnalysis1) = None \/ h.(supplyProjectionInputs) = None -> st' = st)
  /\ (st' <> st -> st'.(initialEquilibriumInputsSet) = true)
  /\ (st'.(initialEquilibriumInputsSet) = true ->
      initEffect h' st' = Returned st'
      /\ forall value : number,
           initEffect h' (setStakedSupply value st')
           = Returned (setStakedSupply value st')
           /\ initEffect h' (setNonStakedSupplyBurnFraction value st')
              = Returned (setNonStakedSupplyBurnFraction value st')).
Proof.
  intros Hrun.
  assert (Hset : forall (g : Hooks) (s : State),
             s.(initialEquilibriumInputsSet) = true -> initEffect g s = Returned s).
  { intros g s Hs. unfold initEffect. rewrite Hs.
    destruct (burnRateAllOf g), (supplyProjectionInputs g); reflexivity. }
  split; [| split; [| split]].
  - intros Hs. rewrite (Hset h st Hs) in Hrun. congruence.
  - intros [Hn | Hn]; unfold initEffect, burnRateAllOf in Hrun; rewrite Hn in Hrun.
    + congruence.
    + destruct (groupedAnalysis1 h); congruence.
  - intros Hne. unfold initEffect in Hrun.
    destruct (burnRateAllOf h) as [rate |]; [| congruence].
    destruct (supplyProjectionInputs h) as [inputs |]; [| congruence].
    destruct (initialEquilibriumInputsSet st); [congruence |].
    destruct (getStakingSupply inputs) as [staked |]; [| discriminate].
    destruct (getNonStakingSupply inputs) as [nonStaked |]; [| discriminate].
    simpl in Hrun. injection Hrun as <-. reflexivity.
  - intros Hs. split; [apply Hset; exact Hs |].
    intros value. split; apply Hset; exact Hs.
Qed.

(** With both data loaded and the flag not set, the effect raises a
    [TypeError] when one of the two series is empty; otherwise it sets the
    flag, the stake to the last staked value, and the burn fraction to that of
    the burn rate over the last supply less the last staked value. *)
Theorem initEffect_sets (h : Hooks) (st : State) (a : GroupedAnalysis1)
    (inputs : SupplyInputs) :
  h.(groupedAnalysis1) = Some a ->
  h.(supplyProjectionInputs) = Some inputs ->
  st.(initialEquilibriumInputsSet) = false ->
  match last inputs.(inBeaconValidatorsByDay), last inputs.(supplyByDay) with
  | Some lastStaked, Some lastSupply =>
      initEffect h st
      = Returned
          {| initialEquilibriumInputsSet := true;
             stakedSupply := lastStaked.(v);
             nonStakedSupplyBurnFraction :=
               burnAsFraction (lastSupply.(v) - lastStaked.(v))
                              a.(burnRates).(burnRateAll) |}
  | _, _ => initEffect h st = TypeError
  end.
Proof.
  intros Ha Hi Hs. unfold initEffect, burnRateAllOf. rewrite Ha, Hi, Hs.
  unfold getStakingSupply, getNonStakingSupply, NEA_last.
  destruct (last (inBeaconValidatorsByDay inputs)) as [lastStaked |];
    destruct (last (supplyByDay inputs)) as [lastSupply |]; reflexivity.
Qed.

End EffectFacts.

(** ** Clicks and the preferences *)

Section TopBarMore.
Import TopBar.
Context {Node : Type} (contains : Node -> Node -> bool).
Implicit Types (refs : Refs (Node := Node)) (w : World) (target : Node).

Lemma click_preserves refs (e_target : option Node) w :
  (click contains refs e_target w).(storage) = w.(storage)
  /\ (click contains refs e_target w).(state).(gasAlarmActive)
     = w.(state).(gasAlarmActive)
  /\ (click contains refs e_target w).(state).(ethAlarmActive)
     = w.(state).(ethAlarmActive).
Proof.
  unfold click.
  destruct (checkIfClickedOutside contains refs _ e_target);
    destruct e_target as [target |];
    try destruct (refContains contains (alarmButtonRef refs) target);
    repeat split.
Qed.

Lemma World_ext (w1 w2 : World) :
  w1.(storage) = w2.(storage) ->
  w1.(state).(gasAlarmActive) = w2.(state).(gasAlarmActive) ->
  w1.(state).(ethAlarmActive) = w2.(state).(ethAlarmActive) ->
  w1.(state).(showAlarmDialog) = w2.(state).(showAlarmDialog) ->
  w1 = w2.
Proof.
  destruct w1 as [σ1 [g1 e1 s1]], w2 as [σ2 [g2 e2 s2]]. simpl.
  intros -> -> -> ->. reflexivity.
Qed.

(** Two clicks in the trigger button leave the component and the storage
    as they were. *)
Theorem click_button_twice refs target w :
  refContains contains refs.(alarmButtonRef) target = true ->
  click contains refs (Some target) (click contains refs (Some target) w) = w.
Proof.
  intros Hb.
  destruct (click_preserves refs (Some target)
              (click contains refs (Some target) w)) as (Hs2 & Hg2 & He2).
  destruct (click_preserves refs (Some target) w) as (Hs1 & Hg1 & He1).
  apply World_ext; [congruence | congruence | congruence |].
  rewrite !click_showAlarmDialog, Hb. apply negb_involutive.
Qed.

End TopBarMore.

(** ** The further properties at sample inputs *)

Section FurtherExamples.
Import JsDate EquilibriumWidget Samples TopBar.
Open Scope float_scope.

Lemma historicSupplyByMonth_sublist_witness :
  historicSupplyByMonth (Some twoMonthInputs)
  = Some [(1642248000%Z, 109000000); (1644926400%Z, 110000000)]
  /\ sublist [(1642248000%Z, 109000000); (1644926400%Z, 110000000)]
             (toPoint <$> twoMonthInputs.(supplyByDay)).
Proof.
  assert (Hh : historicSupplyByMonth (Some twoMonthInputs)
               = Some [(1642248000%Z, 109000000); (1644926400%Z, 110000000)])
    by (vm_compute; reflexivity).
  split; [exact Hh |].
  exact (proj1 (historicSupplyByMonth_sublist twoMonthInputs _ Hh)).
Defined.

Lemma historicSupplyByMonth_months_witness :
  historicSupplyByMonth (Some twoMonthInputs)
  = Some [(1642248000%Z, 109000000); (1644926400%Z, 110000000)]
  /\ monthOf 1642248000 <> monthOf 1644926400.
Proof.
  assert (Hh : historicSupplyByMonth (Some twoMonthInputs)
               = Some [(1642248000%Z, 109000000); (1644926400%Z, 110000000)])
    by (vm_compute; reflexivity).
  split; [exact Hh |].
  exact (proj1 (historicSupplyByMonth_months twoMonthInputs _ Hh) 0%nat
           (1642248000%Z, 109000000) (1644926400%Z, 110000000)
           eq_refl eq_refl).
Defined.

Lemma historicSupplyByMonth_next_day_witness :
  monthOf 1644926400 = monthOf 1645012800
  /\ historicSupplyByMonth
       (Some {| inBeaconValidatorsByDay := twoMonthInputs.(inBeaconValidatorsByDay);
                supplyByDay := twoMonthInputs.(supplyByDay)
                               ++ [ {| t := 1645012800; v := 110500000 |} ] |})
     = Some [(1642248000%Z, 109000000); (1644926400%Z, 110000000)].
Proof.
  assert (Hm : monthOf 1644926400 = monthOf 1645012800) by (vm_compute; reflexivity).
  split; [exact Hm |].
  exact (proj1 (proj1
           (historicSupplyByMonth_next_day
              twoMonthInputs.(inBeaconValidatorsByDay) twoMonthInputs.(supplyByDay)
              {| t := 1644926400; v := 110000000 |}
              {| t := 1645012800; v := 110500000 |}
              [(1642248000%Z, 109000000); (1644926400%Z, 110000000)]
              eq_refl eq_refl) Hm)).
Defined.

Lemma projection_of_NaN_issuance_witness :
  exists e : Equilibriums,
    equilibriums (Some 0) (Some 0) (Some exampleInputs)
                 (Some [(1644883200%Z, 110000000)])
    = Returned (Some e)
    /\ e.(supplyEquilibrium) = NaN.
Proof.
  destruct (projection_of_NaN_issuance (Date := JsDate.Date) 0 0
              exampleInputs [(1644883200%Z, 110000000)]
              (1644883200%Z, 110000000) eq_refl eq_refl)
    as (e & He & Hs & _).
  exists e. split; [exact He | exact Hs].
Defined.

Lemma supplyEquilibriumMap_lookup_witness :
  exists e : Equilibriums,
    equilibriums (Some 10000000) (Some 0.01) (Some exampleInputs)
                 (Some [(1644883200%Z, 110000000)])
    = Returned (Some e)
    /\ forall t0 : Z,
         e.(supplyEquilibriumMap) !! t0
         = snd <$> last (filter (fun p : Point => p.1 = t0)
                                e.(supplyEquilibriumSeries)).
Proof.
  destruct (supplyEquilibriumMap_lookup (Date := JsDate.Date)
              10000000 0.01 exampleInputs
              [(1644883200%Z, 110000000)] (1644883200%Z, 110000000)
              eq_refl)
    as (e & He & Hmap & _).
  exists e. split; [exact He | exact Hmap].
Defined.

Lemma series_timestamps_sorted_witness :
  exists (historic : list Point) (e : Equilibriums),
    historicSupplyByMonth (Some twoMonthInputs) = Some historic
    /\ equilibriums (Some 10000000) (Some 0.01) (Some twoMonthInputs)
                    (Some historic)
       = Returned (Some e)
    /\ StronglySorted (fun p q : Point => (p.1 < q.1)%Z) e.(supplyEquilibriumSeries)
    /\ forall p : Point,
         p ∈ e.(supplyEquilibriumSeries) ->
         e.(supplyEquilibriumMap) !! p.1 = Some p.2.
Proof.
  apply (series_timestamps_sorted (Date := JsDate.Date)
           10000000 0.01 twoMonthInputs).
  - simpl. congruence.
  - repeat (constructor; try (simpl; lia)).
Defined.

Lemma initEffect_once_witness :
  initEffect analysisPendingHooks exampleState = Returned exampleState
  /\ initEffect (loadedHooks twoMonthInputs) (setStakedSupply 20000000 exampleState)
     = Returned (setStakedSupply 20000000 exampleState).
Proof.
  assert (Hrun : initEffect analysisPendingHooks exampleState = Returned exampleState)
    by reflexivity.
  split; [exact Hrun |].
  destruct (initEffect_once analysisPendingHooks (loadedHooks twoMonthInputs)
              exampleState exampleState Hrun) as (_ & _ & _ & Hlater).
  exact (proj1 (proj2 (Hlater eq_refl) 20000000)).
Defined.

Lemma initEffect_sets_witness :
  initEffect (loadedHooks exampleInputs) initialState
  = Returned
      {| initialEquilibriumInputsSet := true;
         stakedSupply := 10000000;
         nonStakedSupplyBurnFraction :=
           burnAsFraction (110000000 - 10000000) 3500000000000000000 |}.
Proof.
  exact (initEffect_sets (loadedHooks exampleInputs) initialState
           {| burnRates := {| burnRateAll := 3500000000000000000 |} |}
           exampleInputs eq_refl eq_refl eq_refl).
Defined.

Lemma click_button_twice_witness :
  click Element_contains mountedRefs (Some BellImage)
        (click Element_contains mountedRefs (Some BellImage) (mount ∅))
  = mount ∅.
Proof.
  apply (click_button_twice Element_contains mountedRefs BellImage (mount ∅)).
  reflexivity.
Defined.

End FurtherExamples.
